(** * Emp_TS: the employee timesheet tracker ([app2.py])

    A shallow embedding of the computational core of [app2.py]: the
    construction of the per-day table ([init_timesheet]), the recomputation of
    the daily totals ([calculate_totals]), the merge of the edited grid back
    into the table, the four dashboard metrics, the weekly and monthly
    summaries and the CSV export, all found in [main].

    Modelling conventions.
    - A [DataFrame] is the list of its rows, in index order; its index is the
      [RangeIndex] 0, 1, ..., n-1 that [pd.DataFrame] gives it, so the label
      of a row is its position.
    - A float64 cell is a [cell]: [Some q] for a finite number, taken as the
      exact rational [q], and [None] for [NaN], which pandas reads as a
      missing value.  Arithmetic is exact: binary rounding of sums and
      products is not modelled.  So nothing is stated below that compares
      sums taken in different orders, or a rounded sum with an exact one,
      except on values on which float64 arithmetic is exact as well
      ([quarter_rows]).
    - A [datetime64] timestamp at midnight is the number of its day, counted
      as Python's [date.toordinal] does (0001-01-01 is day 1).  Dates are
      taken within the range a timestamp can hold, as the dates of the date
      picker are; the bounds of that range are not modelled.
    - The calendar functions ([strftime("%A")], [isocalendar().week],
      [month_name()]) follow the proleptic Gregorian calendar and ISO 8601,
      as the reference implementation in Python's [datetime] states them.
    - The CSV export follows the dialect [to_csv] hands to Python's [csv]
      writer (comma, double quote, minimal quoting), with the line feed as
      line terminator; the rendering of a float is a parameter. *)

From Stdlib Require Import ZArith QArith Qround Qabs Bool List Lia Lqa.
From Stdlib Require Import Ascii String Sorted Permutation.
From Stdlib Require Import OrdersEx DecimalString DecimalZ DecimalPos.
Import ListNotations.

(* ------------------------------------------------------------------ *)
(** ** The calendar *)

Module Calendar.
Local Open Scope Z_scope.

(** A [datetime.date]. *)
Record date : Type := mkdate { year : Z; month : Z; day : Z }.

Definition is_leap (y : Z) : bool :=
  (y mod 4 =? 0) && (negb (y mod 100 =? 0) || (y mod 400 =? 0)).

Definition DAYS_IN_MONTH (m : Z) : Z :=
  if m =? 2 then 28
  else if (m =? 4) || (m =? 6) || (m =? 9) || (m =? 11) then 30
  else 31.

Definition days_in_month (y m : Z) : Z :=
  if (m =? 2) && is_leap y then 29 else DAYS_IN_MONTH m.

(** Number of days of the year before the first day of month [m], leap day
    aside. *)
Definition DAYS_BEFORE_MONTH (m : Z) : Z :=
  match m with
  | 1 => 0 | 2 => 31 | 3 => 59 | 4 => 90 | 5 => 120 | 6 => 151
  | 7 => 181 | 8 => 212 | 9 => 243 | 10 => 273 | 11 => 304 | 12 => 334
  | _ => 365
  end.

Definition days_before_year (y : Z) : Z :=
  let y' := y - 1 in y' * 365 + y' / 4 - y' / 100 + y' / 400.

Definition days_before_month (y m : Z) : Z :=
  DAYS_BEFORE_MONTH m + (if (2 <? m) && is_leap y then 1 else 0).

Definition ymd2ord (y m d : Z) : Z :=
  days_before_year y + days_before_month y m + d.

Definition toordinal (d : date) : Z := ymd2ord (year d) (month d) (day d).

(** The dates that [datetime.date] can hold. *)
Definition valid_date (d : date) : Prop :=
  1 <= year d <= 9999 /\ 1 <= month d <= 12 /\
  1 <= day d <= days_in_month (year d) (month d).

Definition valid_dateb (d : date) : bool :=
  (1 <=? year d) && (year d <=? 9999) && (1 <=? month d) && (month d <=? 12)
  && (1 <=? day d) && (day d <=? days_in_month (year d) (month d)).

(** Comparison of two dates, as Python compares them: by year, then month,
    then day. *)
Definition date_compare (a b : date) : comparison :=
  match year a ?= year b with
  | Eq => match month a ?= month b with
          | Eq => day a ?= day b
          | c => c
          end
  | c => c
  end.

Definition date_le (a b : date) : Prop := date_compare a b <> Gt.
Definition date_lt (a b : date) : Prop := date_compare a b = Lt.
Definition date_gt (a b : date) : Prop := date_compare a b = Gt.

(** [(b - a).days] *)
Definition days_between (a b : date) : Z := toordinal b - toordinal a.

Definition DI400Y : Z := 146097.
Definition DI100Y : Z := 36524.
Definition DI4Y : Z := 1461.

(** The month and the day of the [n]-th day (from 0) of year [y]: a first
    guess of the month, one too high at times, then corrected. *)
Definition month_day (y n : Z) (leapyear : bool) : date :=
  let m := Z.shiftr (n + 50) 5 in
  let preceding :=
    DAYS_BEFORE_MONTH m + (if (2 <? m) && leapyear then 1 else 0) in
  if n <? preceding then
    let m' := m - 1 in
    let preceding' :=
      preceding
      - (DAYS_IN_MONTH m' + (if (m' =? 2) && leapyear then 1 else 0)) in
    mkdate y m' (n - preceding' + 1)
  else mkdate y m (n - preceding + 1).

(** The date of a day number. *)
Definition ord2ymd (n0 : Z) : date :=
  let n := n0 - 1 in
  let n400 := n / DI400Y in
  let n := n mod DI400Y in
  let y := n400 * 400 + 1 in
  let n100 := n / DI100Y in
  let n := n mod DI100Y in
  let n4 := n / DI4Y in
  let n := n mod DI4Y in
  let n1 := n / 365 in
  let n := n mod 365 in
  let y := y + n100 * 100 + n4 * 4 + n1 in
  if (n1 =? 4) || (n100 =? 4) then mkdate (y - 1) 12 31
  else
    let leapyear := (n1 =? 3) && (negb (n4 =? 24) || (n100 =? 3)) in
    month_day y n leapyear.

(** Monday is 0, Sunday is 6. *)
Definition weekday (n : Z) : Z := (n + 6) mod 7.

Definition day_name (n : Z) : string :=
  match weekday n with
  | 0 => "Monday" | 1 => "Tuesday" | 2 => "Wednesday" | 3 => "Thursday"
  | 4 => "Friday" | 5 => "Saturday" | _ => "Sunday"
  end%string.

Definition month_name_of (m : Z) : string :=
  match m with
  | 1 => "January" | 2 => "February" | 3 => "March" | 4 => "April"
  | 5 => "May" | 6 => "June" | 7 => "July" | 8 => "August"
  | 9 => "September" | 10 => "October" | 11 => "November" | _ => "December"
  end%string.

Definition month_name (n : Z) : string := month_name_of (month (ord2ymd n)).

(** The Monday that starts ISO week 1 of year [y]: the week that holds the
    year's first Thursday. *)
Definition isoweek1monday (y : Z) : Z :=
  let firstday := ymd2ord y 1 1 in
  let firstweekday := (firstday + 6) mod 7 in
  let week1monday := firstday - firstweekday in
  if 3 <? firstweekday then week1monday + 7 else week1monday.

(** The ISO 8601 week number of a day. *)
Definition isoweek (n : Z) : Z :=
  let y := year (ord2ymd n) in
  let week := (n - isoweek1monday y) / 7 in
  if week <? 0 then (n - isoweek1monday (y - 1)) / 7 + 1
  else if (52 <=? week) && (isoweek1monday (y + 1) <=? n) then 1
  else week + 1.

End Calendar.

(* ------------------------------------------------------------------ *)
(** ** Float columns *)

Module Series.
Local Open Scope Q_scope.

(** A float64 cell: [None] is [NaN]. *)
Definition cell : Type := option Q.

(** Elementwise product of two cells; [NaN] propagates. *)
Definition fmul (a b : cell) : cell :=
  match a, b with
  | Some x, Some y => Some (x * y)
  | _, _ => None
  end.

(** [c > 0], false on [NaN]. *)
Definition gt0 (c : cell) : bool :=
  match c with
  | Some x => negb (Qle_bool x 0)
  | None => false
  end.

(** The value a cell adds to a sum: [sum] skips [NaN]. *)
Definition nan0 (c : cell) : Q :=
  match c with Some x => x | None => 0 end.

(** [Series.sum()], with [skipna=True]. *)
Fixpoint sum (s : list cell) : Q :=
  match s with
  | [] => 0
  | c :: s' => nan0 c + sum s'
  end.

(** [Series.count()]: the cells that are not [NaN]. *)
Fixpoint count (s : list cell) : nat :=
  match s with
  | [] => O
  | Some _ :: s' => S (count s')
  | None :: s' => count s'
  end.

(** [Series.mean()]: [NaN] when no cell holds a number. *)
Definition mean (s : list cell) : cell :=
  match count s with
  | O => None
  | S _ => Some (sum s / inject_Z (Z.of_nat (count s)))
  end.

(** Round to the nearest integer, ties to the even one, as [numpy.rint]. *)
Definition rint (q : Q) : Z :=
  let f := Qfloor q in
  match Qcompare (q - inject_Z f) (1 # 2) with
  | Lt => f
  | Gt => (f + 1)%Z
  | Eq => if Z.even f then f else (f + 1)%Z
  end.

(** [round(2)] on a float: [rint(q * 100) / 100]. *)
Definition round2 (q : Q) : Q := inject_Z (rint (q * 100)) / 100.

(** Equality of two cells as numbers. *)
Definition cell_eq (a b : cell) : Prop :=
  match a, b with
  | Some x, Some y => x == y
  | None, None => True
  | _, _ => False
  end.

End Series.

(* ------------------------------------------------------------------ *)
(** ** The timesheet *)

Import Calendar Series.

(** One row of the table, a field per column. *)
Record row : Type := mkrow {
  Date : Z;
  Day : string;
  Hours_Worked : cell;
  Hourly_Rate : cell;
  Daily_Total : cell;
  Tasks_Completed : option string;
  Week : Z;
  Month : string;
  Employee_Name : string
}.

Definition DataFrame : Type := list row.

(** [pd.date_range(start, end, freq="D")] on day numbers: every day from
    [s] to [e], both included; empty when [e < s]. *)
Definition date_range (s e : Z) : list Z :=
  map (fun i => (s + Z.of_nat i)%Z) (seq 0 (Z.to_nat (e - s + 1))).

Definition init_row (employee_name : string) (d : Z) : row :=
  {| Date := d;
     Day := day_name d;
     Hours_Worked := Some 0;
     Hourly_Rate := Some 0;
     Daily_Total := Some 0;
     Tasks_Completed := Some EmptyString;
     Week := isoweek d;
     Month := month_name d;
     Employee_Name := employee_name |}.

Definition init_timesheet (start end_ : date) (employee_name : string)
  : DataFrame :=
  let dates := date_range (toordinal start) (toordinal end_) in
  map (init_row employee_name) dates.

Definition set_Daily_Total (r : row) (v : cell) : row :=
  {| Date := Date r; Day := Day r;
     Hours_Worked := Hours_Worked r; Hourly_Rate := Hourly_Rate r;
     Daily_Total := v;
     Tasks_Completed := Tasks_Completed r;
     Week := Week r; Month := Month r; Employee_Name := Employee_Name r |}.

(** [df["Daily Total"] = df["Hours Worked"] * df["Hourly Rate"]] *)
Definition calculate_totals (df : DataFrame) : DataFrame :=
  map (fun r => set_Daily_Total r (fmul (Hours_Worked r) (Hourly_Rate r))) df.

(** *** The edited grid *)

(** A row of the frame the grid editor returns: the three editable columns. *)
Record edit : Type := mkedit {
  e_hours : cell;
  e_rate : cell;
  e_tasks : option string
}.

(** The frame the editor returns, as its rows by index label.  The editor
    may have dropped labels (deleted rows) and added new ones. *)
Definition edited_frame : Type := list (nat * edit).

Fixpoint loc (label : nat) (ed : edited_frame) : option edit :=
  match ed with
  | [] => None
  | (l, e) :: ed' => if Nat.eqb l label then Some e else loc label ed'
  end.

Definition set_edit (r : row) (h rt : cell) (t : option string) : row :=
  {| Date := Date r; Day := Day r;
     Hours_Worked := h; Hourly_Rate := rt;
     Daily_Total := Daily_Total r;
     Tasks_Completed := t;
     Week := Week r; Month := Month r; Employee_Name := Employee_Name r |}.

(** What the three assignments [df.loc[:, c] = edited_df[c]] write in a row,
    given the row the editor returns for its label: each column of the
    editor is aligned on the index of [df], so a label the editor no longer
    has gets missing values. *)
Definition merged (r : row) (e : option edit) : row :=
  match e with
  | Some e => set_edit r (e_hours e) (e_rate e) (e_tasks e)
  | None => set_edit r None None None
  end.

(** The merge over the rows of [df], the first of which has label [i]; a
    label of the editor that [df] does not have is ignored. *)
Fixpoint update_from (i : nat) (df : DataFrame) (ed : edited_frame)
  : DataFrame :=
  match df with
  | [] => []
  | r :: df' => merged r (loc i ed) :: update_from (S i) df' ed
  end.

Definition update (df : DataFrame) (ed : edited_frame) : DataFrame :=
  update_from 0 df ed.

(** One run of the script after the editor returned [ed]: merge the edits,
    then recompute the totals.  The result is what the session keeps. *)
Definition rerun (df : DataFrame) (ed : edited_frame) : DataFrame :=
  calculate_totals (update df ed).

(** The table the session holds after the script ran once for each of the
    frames [eds] that the editor returned, starting from a fresh table. *)
Definition session (start end_ : date) (employee_name : string)
  (eds : list edited_frame) : DataFrame :=
  fold_left rerun eds (init_timesheet start end_ employee_name).

(** *** The dashboard metrics *)

Definition total_hours (df : DataFrame) : Q := sum (map Hours_Worked df).

Definition total_earnings (df : DataFrame) : Q := sum (map Daily_Total df).

Definition avg_hourly_rate (df : DataFrame) : cell :=
  let positive := filter (fun r => gt0 (Hourly_Rate r)) df in
  if (0 <? List.length positive)%nat then mean (map Hourly_Rate positive)
  else Some 0.

Definition days_worked (df : DataFrame) : nat :=
  List.length (filter (fun r => gt0 (Hours_Worked r)) df).

(** *** Grouping *)

Section GroupBy.
Context {K : Type}.
Variable cmp : K -> K -> comparison.

(** Put a row in the group of its key, keeping the groups in ascending
    key order and the rows of a group in table order. *)
Fixpoint group_add (k : K) (r : row) (gs : list (K * list row))
  : list (K * list row) :=
  match gs with
  | [] => [(k, [r])]
  | (k', rs) :: gs' =>
      match cmp k k' with
      | Lt => (k, [r]) :: gs
      | Eq => (k', rs ++ [r]) :: gs'
      | Gt => (k', rs) :: group_add k r gs'
      end
  end.

(** [df.groupby(key)], with the default [sort=True]. *)
Definition groupby (key : row -> K) (df : DataFrame) : list (K * list row) :=
  fold_left (fun gs r => group_add (key r) r gs) df [].

(** [.agg({"Hours Worked": "sum", "Daily Total": "sum"})] *)
Definition agg_sum (gs : list (K * list row)) : list (K * (Q * Q)) :=
  map (fun g => (fst g, (sum (map Hours_Worked (snd g)),
                         sum (map Daily_Total (snd g))))) gs.

(** [.round(2)] *)
Definition round_2 (s : list (K * (Q * Q))) : list (K * (Q * Q)) :=
  map (fun e => (fst e, (round2 (fst (snd e)), round2 (snd (snd e))))) s.

Definition summary (key : row -> K) (df : DataFrame) : list (K * (Q * Q)) :=
  round_2 (agg_sum (groupby key df)).
End GroupBy.

(** Whether two keys compare equal. *)
Definition key_eqb {K : Type} (cmp : K -> K -> comparison) (a b : K) : bool :=
  match cmp a b with Eq => true | _ => false end.

(** The rows of a table whose key is [k]. *)
Definition rows_with {K : Type} (cmp : K -> K -> comparison)
  (key : row -> K) (k : K) (df : DataFrame) : list row :=
  filter (fun r => key_eqb cmp (key r) k) df.

Definition weekly_summary (df : DataFrame) : list (Z * (Q * Q)) :=
  summary Z.compare Week df.

Definition monthly_summary (df : DataFrame) : list (string * (Q * Q)) :=
  summary String_as_OT.compare Month df.


Definition sum_earnings {K : Type} (s : list (K * (Q * Q))) : Q :=
  fold_right (fun e acc => snd (snd e) + acc) 0 s.

(** The distinct values of a column in the order in which the table first
    shows them: the order the specification gives to the monthly summary. *)
Fixpoint first_occurrence (l : list string) : list string :=
  match l with
  | [] => []
  | x :: l' => x :: filter (fun y => negb (String.eqb x y)) (first_occurrence l')
  end.

(** *** The metrics, as the specification words them *)

(** The rates of the rows whose rate is a number above 0. *)
Fixpoint positive_rates (df : DataFrame) : list Q :=
  match df with
  | [] => []
  | r :: df' =>
      match Hourly_Rate r with
      | Some q => if Qle_bool q 0 then positive_rates df'
                  else q :: positive_rates df'
      | None => positive_rates df'
      end
  end.

Definition Qsum (l : list Q) : Q := fold_right Qplus 0 l.

(** The mean of the rates above 0, and 0 when there is none. *)
Definition spec_average_rate (df : DataFrame) : Q :=
  match positive_rates df with
  | [] => 0
  | l => Qsum l / inject_Z (Z.of_nat (List.length l))
  end.

(** The number of rows whose hours are a number above 0. *)
Fixpoint spec_days_worked (df : DataFrame) : nat :=
  match df with
  | [] => O
  | r :: df' =>
      match Hours_Worked r with
      | Some q => if Qle_bool q 0 then spec_days_worked df'
                  else S (spec_days_worked df')
      | None => spec_days_worked df'
      end
  end.

(** The sum of a column over all rows, a missing value adding nothing. *)
Fixpoint spec_total (col : row -> cell) (df : DataFrame) : Q :=
  match df with
  | [] => 0
  | r :: df' =>
      match col r with
      | Some q => q + spec_total col df'
      | None => spec_total col df'
      end
  end.

(* ------------------------------------------------------------------ *)
(** ** The CSV export *)

Module CSV.

Definition text : Type := list ascii.

Definition comma : ascii := ","%char.
Definition dquote : ascii := "034"%char.
Definition LF : ascii := "010"%char.
Definition CR : ascii := "013"%char.

(** The writer's dialect: delimiter [comma], quote character [dquote],
    minimal quoting with doubled quotes, records ended by [LF]. *)
Definition lineterminator : text := [LF].

(** The characters that force a field between quotes: the delimiter, the
    quote character and the characters of the line terminator. *)
Definition special (c : ascii) : bool :=
  Ascii.eqb c comma || Ascii.eqb c dquote
  || existsb (Ascii.eqb c) lineterminator.

Fixpoint escape (f : text) : text :=
  match f with
  | [] => []
  | c :: f' =>
      if Ascii.eqb c dquote then dquote :: dquote :: escape f'
      else c :: escape f'
  end.

Definition write_field (f : text) : text :=
  if existsb special f then dquote :: escape f ++ [dquote] else f.

Fixpoint write_fields (fs : list text) : text :=
  match fs with
  | [] => []
  | [f] => write_field f
  | f :: fs' => write_field f ++ comma :: write_fields fs'
  end.

Definition write_row (fs : list text) : text :=
  write_fields fs ++ lineterminator.

(** *** A reader

    The reader against which the export is read back: the automaton of
    Python's [csv.reader] in its default dialect.  A record ends at [LF], at
    [CR] or at [CR LF]; a quote inside a quoted field is written twice; the
    reader is the lenient one, which refuses no text. *)

Inductive pstate : Type :=
  StartRecord | StartField | InField | InQuoted | QuoteInQuoted | AfterCR.

Definition is_eol (c : ascii) : bool := Ascii.eqb c LF || Ascii.eqb c CR.

Definition after_eol (c : ascii) : pstate :=
  if Ascii.eqb c CR then AfterCR else StartRecord.

Fixpoint parse (st : pstate) (cur : text) (fs : list text)
  (rs : list (list text)) (t : text) {struct t} : list (list text) :=
  match t with
  | [] =>
      match st with
      | StartRecord | AfterCR => rev rs
      | StartField | InField | InQuoted | QuoteInQuoted =>
          rev (rev (rev cur :: fs) :: rs)
      end
  | c :: t' =>
      match st with
      | AfterCR =>
          if Ascii.eqb c LF then parse StartRecord [] [] rs t'
          else if Ascii.eqb c dquote then parse InQuoted [] [] rs t'
          else if Ascii.eqb c comma then parse StartField [] [[]] rs t'
          else if is_eol c then parse (after_eol c) [] [] ([] :: rs) t'
          else parse InField [c] [] rs t'
      | StartRecord =>
          if Ascii.eqb c dquote then parse InQuoted [] [] rs t'
          else if Ascii.eqb c comma then parse StartField [] [[]] rs t'
          else if is_eol c then parse (after_eol c) [] [] ([] :: rs) t'
          else parse InField [c] [] rs t'
      | StartField =>
          if Ascii.eqb c dquote then parse InQuoted [] fs rs t'
          else if Ascii.eqb c comma then parse StartField [] ([] :: fs) rs t'
          else if is_eol c
               then parse (after_eol c) [] [] (rev ([] :: fs) :: rs) t'
          else parse InField [c] fs rs t'
      | InField =>
          if Ascii.eqb c comma then parse StartField [] (rev cur :: fs) rs t'
          else if is_eol c
               then parse (after_eol c) [] [] (rev (rev cur :: fs) :: rs) t'
          else parse InField (c :: cur) fs rs t'
      | InQuoted =>
          if Ascii.eqb c dquote then parse QuoteInQuoted cur fs rs t'
          else parse InQuoted (c :: cur) fs rs t'
      | QuoteInQuoted =>
          if Ascii.eqb c dquote then parse InQuoted (c :: cur) fs rs t'
          else if Ascii.eqb c comma
               then parse StartField [] (rev cur :: fs) rs t'
          else if is_eol c
               then parse (after_eol c) [] [] (rev (rev cur :: fs) :: rs) t'
          else parse InField (c :: cur) fs rs t'
      end
  end.

Definition read_csv (t : text) : list (list text) :=
  parse StartRecord [] [] [] t.

(** A character that the reader takes as data wherever it stands. *)
Definition plain (c : ascii) : Prop :=
  Ascii.eqb c comma = false /\ Ascii.eqb c dquote = false
  /\ Ascii.eqb c LF = false /\ Ascii.eqb c CR = false.

(** A field without a carriage return. *)
Definition no_CR (f : text) : Prop := ~ In CR f.

(** The states in which a field starts, with the fields read so far. *)
Definition starts (st : pstate) (fs : list text) : Prop :=
  st = StartField \/ (st = StartRecord /\ fs = []).

(** A record of two fields or more. *)
Definition wide (record : list text) : Prop :=
  exists f g fields, record = f :: g :: fields.

End CSV.

Import CSV.

Definition chars (s : string) : text := list_ascii_of_string s.

Definition digit (n : Z) : ascii :=
  ascii_of_nat (48 + Z.to_nat (n mod 10)).

Definition pad2 (n : Z) : text := [digit (n / 10); digit n].

Definition pad4 (n : Z) : text :=
  digit (n / 1000) :: digit (n / 100) :: pad2 n.

(** A midnight timestamp, as [to_csv] writes it: [YYYY-MM-DD]. *)
Definition fmt_date (n : Z) : text :=
  let d := ord2ymd n in
  pad4 (year d) ++ "-"%char :: pad2 (month d) ++ "-"%char :: pad2 (day d).

(** An integer cell, in decimal. *)
Definition fmt_int (z : Z) : text := chars (NilZero.string_of_int (Z.to_int z)).

(** A text cell; a missing value is written as the empty field
    ([na_rep] is the empty string by default). *)
Definition fmt_text (t : option string) : text :=
  match t with
  | Some s => chars s
  | None => []
  end.

Definition columns : list text :=
  map chars
    ["Date"; "Day"; "Hours Worked"; "Hourly Rate"; "Daily Total";
     "Tasks Completed"; "Week"; "Month"; "Employee Name"]%string.

Section ToCsv.
(** The text [to_csv] writes for a float that is not [NaN]: the shortest
    decimal that reads back as the same float.  It is not part of the
    program; the export is stated for any such rendering. *)
Variable float_repr : Q -> text.

Definition fmt_cell (c : cell) : text :=
  match c with
  | Some q => float_repr q
  | None => []
  end.

Definition row_fields (r : row) : list text :=
  [ fmt_date (Date r); chars (Day r);
    fmt_cell (Hours_Worked r); fmt_cell (Hourly_Rate r);
    fmt_cell (Daily_Total r); fmt_text (Tasks_Completed r);
    fmt_int (Week r); chars (Month r); chars (Employee_Name r) ].

(** [df.to_csv(index=False)] *)
Definition to_csv (df : DataFrame) : text :=
  write_row columns ++ List.concat (map (fun r => write_row (row_fields r)) df).
End ToCsv.

(** A rendering of floats used in the examples: the decimal expansion with
    at least one and at most seventeen fractional digits. *)
Fixpoint frac_digits (fuel : nat) (num den : Z) : text :=
  match fuel with
  | O => []
  | S k =>
      if (num =? 0)%Z then []
      else digit (10 * num / den) :: frac_digits k ((10 * num) mod den) den
  end.

Definition decimal_repr (q : Q) : text :=
  let n := Z.abs (Qnum q) in
  let d := Zpos (Qden q) in
  let frac := frac_digits 17 (n mod d) d in
  (if (Qnum q <? 0)%Z then ["-"%char] else [])
  ++ fmt_int (n / d) ++ "."%char
  :: (match frac with [] => ["0"%char] | _ => frac end).

(* ------------------------------------------------------------------ *)
(** ** Further parts of the program *)

(** The day after a date. *)
Definition tomorrow (d : date) : date :=
  if (day d <? days_in_month (year d) (month d))%Z
  then mkdate (year d) (month d) (day d + 1)
  else if (month d <? 12)%Z then mkdate (year d) (month d + 1) 1
  else mkdate (year d + 1) 1 1.

(** *** The frame shown in the grid *)

(** The editable columns of a row. *)
Definition edit_of (r : row) : edit :=
  mkedit (Hours_Worked r) (Hourly_Rate r) (Tasks_Completed r).

(** The frame handed to the grid editor,
    [df[["Date", "Day", "Hours Worked", "Hourly Rate", "Tasks Completed"]]],
    as the editor returns it when the user changes nothing: the editable
    columns of every row under its label, the first label being [i]. *)
Fixpoint frame_from (i : nat) (df : DataFrame) : edited_frame :=
  match df with
  | [] => []
  | r :: df' => (i, edit_of r) :: frame_from (S i) df'
  end.

Definition editor_input (df : DataFrame) : edited_frame := frame_from 0 df.

(** *** The bounds the grid sets on its cells *)

(** A cell that is missing or holds a number from [lo] to [hi]. *)
Definition cell_between (lo hi : Q) (c : cell) : Prop :=
  match c with
  | Some q => lo <= q <= hi
  | None => True
  end.

(** A cell that is missing or holds a number not below [lo]. *)
Definition cell_at_least (lo : Q) (c : cell) : Prop :=
  match c with
  | Some q => lo <= q
  | None => True
  end.

(** The bounds of the column configuration: hours from 0 to 24, rates from
    0 up. *)
Definition within_grid_bounds (r : row) : Prop :=
  cell_between 0 24 (Hours_Worked r) /\ cell_at_least 0 (Hourly_Rate r).

(** *** Values on which float arithmetic loses nothing *)




(** The values the month and the week columns can take. *)
Definition month_names : list string :=
  ["January"; "February"; "March"; "April"; "May"; "June"; "July"; "August";
   "September"; "October"; "November"; "December"]%string.

Definition week_numbers : list Z := map Z.of_nat (seq 1 53).

(** *** The names of the exported files *)

Definition space : ascii := " "%char.
Definition underscore : ascii := "_"%char.

(** [s.replace(' ', '_')] *)
Definition replace_space (s : text) : text :=
  map (fun c => if Ascii.eqb c space then underscore else c) s.

(** [strftime('%Y%m%d')] *)
Definition stamp (today : date) : text :=
  pad4 (year today) ++ pad2 (month today) ++ pad2 (day today).

(** The name given to a download, [timesheet_<name>_<date><ext>], on the
    date [today] that [datetime.now()] returns. *)
Definition file_name (employee_name : string) (today : date) (ext : string)
  : text :=
  chars "timesheet_" ++ replace_space (chars employee_name)
  ++ underscore :: stamp today ++ chars ext.

(** *** A run of [main] *)

(** The buttons of the page. *)
Inductive button : Type :=
  Initialize | PrepareExcel | PrepareCsv | ClearAll | ConfirmClear.

(** What a run of [main] leaves in the session: [clicked b] is what
    [st.button] returns for button [b] in this run, [editor] what the grid
    editor returns for the frame it is shown, [state] the table of the
    session before the run, if any. *)
Definition main (clicked : button -> bool) (start_date end_date : date)
  (employee_name : string) (editor : DataFrame -> edited_frame)
  (state : option DataFrame) : DataFrame :=
  let state :=
    if clicked Initialize
    then Some (init_timesheet start_date end_date employee_name)
    else state in
  let state :=
    match state with
    | None => init_timesheet start_date end_date employee_name
    | Some df => df
    end in
  let df := rerun state (editor state) in
  if clicked ClearAll then
    if clicked ConfirmClear
    then init_timesheet start_date end_date employee_name
    else df
  else df.

(** *** Frames that change the notes only *)

(** A frame that has, for every row of the table, the hours and the rate the
    table already holds. *)
Definition notes_only (df : DataFrame) (ed : edited_frame) : Prop :=
  forall i r, nth_error df i = Some r ->
    exists e, loc i ed = Some e
              /\ e_hours e = Hours_Worked r /\ e_rate e = Hourly_Rate r.

(** Two rows with the same key and the same figures. *)
Definition same_figures {K : Type} (key : row -> K) (r r' : row) : Prop :=
  key r = key r' /\ Hours_Worked r = Hours_Worked r'
  /\ Daily_Total r = Daily_Total r'.

(** *** What the export keeps of a note *)

(** The text of a note, a missing note having the empty text. *)
Definition note_text (t : option string) : string :=
  match t with
  | Some s => s
  | None => EmptyString
  end.

(** *** Reading the export back into rows

    The round trip of the specification: the text is read with the reader
    above and every record after the header is turned into a row again, the
    date from [YYYY-MM-DD], the week from its decimal digits, a number from
    its rendering and an empty field as a missing number.  A text field is
    taken as it stands, so the note of a row that is read back is always a
    text. *)

Definition digit_value (c : ascii) : option Z :=
  let n := nat_of_ascii c in
  if ((48 <=? n) && (n <=? 57))%nat then Some (Z.of_nat (n - 48)) else None.

Fixpoint read_digits (acc : Z) (t : text) : option Z :=
  match t with
  | [] => Some acc
  | c :: t' =>
      match digit_value c with
      | Some d => read_digits (10 * acc + d) t'
      | None => None
      end
  end.

(** A date written [YYYY-MM-DD], as [date.fromisoformat] reads it. *)
Definition read_date (t : text) : option Z :=
  match t with
  | [y1; y2; y3; y4; s1; m1; m2; s2; d1; d2] =>
      match read_digits 0 [y1; y2; y3; y4], read_digits 0 [m1; m2],
            read_digits 0 [d1; d2] with
      | Some y, Some m, Some d =>
          if Ascii.eqb s1 "-" && Ascii.eqb s2 "-" && valid_dateb (mkdate y m d)
          then Some (ymd2ord y m d)
          else None
      | _, _, _ => None
      end
  | _ => None
  end.

(** An integer in decimal. *)
Definition read_int (t : text) : option Z :=
  option_map Z.of_int (NilZero.int_of_string (string_of_list_ascii t)).

Definition read_text (t : text) : string := string_of_list_ascii t.

Section ReadBack.
(** The reading of a float from its rendering; like the rendering, it is
    not part of the program. *)
Variable float_repr : Q -> text.
Variable float_read : text -> option Q.

(** A cell whose number, if it has one, reads back from its rendering as
    the same number. *)
Definition reads_back (c : cell) : Prop :=
  match c with
  | Some q =>
      float_repr q <> []
      /\ exists q', float_read (float_repr q) = Some q' /\ q' == q
  | None => True
  end.

Definition read_cell (t : text) : option cell :=
  match t with
  | [] => Some None
  | _ => option_map Some (float_read t)
  end.

Definition read_row (fields : list text) : option row :=
  match fields with
  | [d; dn; h; rate; total; note; w; m; e] =>
      match read_date d, read_cell h, read_cell rate, read_cell total,
            read_int w with
      | Some d, Some h, Some rate, Some total, Some w =>
          Some {| Date := d; Day := read_text dn;
                  Hours_Worked := h; Hourly_Rate := rate;
                  Daily_Total := total;
                  Tasks_Completed := Some (read_text note);
                  Week := w; Month := read_text m;
                  Employee_Name := read_text e |}
      | _, _, _, _, _ => None
      end
  | _ => None
  end.

Fixpoint read_rows (records : list (list text)) : option DataFrame :=
  match records with
  | [] => Some []
  | fields :: records' =>
      match read_row fields, read_rows records' with
      | Some r, Some df => Some (r :: df)
      | _, _ => None
      end
  end.

(** The rows of an export: the records after the header. *)
Definition read_table (t : text) : option DataFrame :=
  match read_csv t with
  | [] => None
  | header :: records => read_rows records
  end.
End ReadBack.

(** A row [r'] that holds what the row [r] held, a missing note having
    become the empty text. *)
Definition read_back (r r' : row) : Prop :=
  Date r' = Date r /\ Day r' = Day r
  /\ cell_eq (Hours_Worked r') (Hours_Worked r)
  /\ cell_eq (Hourly_Rate r') (Hourly_Rate r)
  /\ cell_eq (Daily_Total r') (Daily_Total r)
  /\ Tasks_Completed r' = Some (note_text (Tasks_Completed r))
  /\ Week r' = Week r /\ Month r' = Month r
  /\ Employee_Name r' = Employee_Name r.

(** The day numbers of the dates a [datetime.date] can hold: 0001-01-01 to
    9999-12-31. *)
Definition date_number (n : Z) : Prop := (1 <= n <= 3652059)%Z.

(** The reading of the decimal rendering used in the examples. *)
Definition read_fraction (t : text) : option (Z * Z) :=
  fold_left
    (fun acc c =>
       match acc, digit_value c with
       | Some (n, d), Some v => Some (10 * n + v, 10 * d)%Z
       | _, _ => None
       end) t (Some (0, 1)%Z).

Fixpoint split_point (t : text) : text * text :=
  match t with
  | [] => ([], [])
  | c :: t' =>
      if Ascii.eqb c "." then ([], t')
      else let (a, b) := split_point t' in (c :: a, b)
  end.

Definition decimal_read (t : text) : option Q :=
  let (neg, t) :=
    match t with
    | c :: t' => if Ascii.eqb c "-" then (true, t') else (false, t)
    | [] => (false, t)
    end in
  let (whole, frac) := split_point t in
  match whole, read_digits 0 whole, read_fraction frac with
  | _ :: _, Some w, Some (n, d) =>
      let q := Qred ((w * d + n) # Z.to_pos d) in
      Some (if neg then Qopp q else q)
  | _, _, _ => None
  end.

(* ------------------------------------------------------------------ *)
(** * Properties *)

(** ** The calendar: day numbers follow the order of dates *)

Module CalendarFacts.
Import Calendar.
Local Open Scope Z_scope.

Lemma is_leap_cases (y : Z) :
  (is_leap y = true /\ y mod 4 = 0 /\ (y mod 100 <> 0 \/ y mod 400 = 0)) \/
  (is_leap y = false /\ (y mod 4 <> 0 \/ (y mod 100 = 0 /\ y mod 400 <> 0))).
Proof.
  unfold is_leap.
  destruct (Z.eqb_spec (y mod 4) 0), (Z.eqb_spec (y mod 100) 0),
    (Z.eqb_spec (y mod 400) 0); simpl; intuition lia.
Qed.

Lemma days_before_year_succ (y : Z) :
  days_before_year (y + 1)
  = days_before_year y + 365 + (if is_leap y then 1 else 0).
Proof.
  unfold days_before_year; cbv zeta.
  replace (y + 1 - 1) with y by lia.
  destruct (is_leap_cases y) as [[-> H] | [-> H]];
    Z.div_mod_to_equations; lia.
Qed.

Lemma days_before_year_mono (y1 y2 : Z) :
  y1 <= y2 -> days_before_year y1 <= days_before_year y2.
Proof.
  unfold days_before_year; cbv zeta; intros H.
  Z.div_mod_to_equations; lia.
Qed.

Lemma month_cases (m : Z) :
  1 <= m <= 12 ->
  m = 1 \/ m = 2 \/ m = 3 \/ m = 4 \/ m = 5 \/ m = 6 \/
  m = 7 \/ m = 8 \/ m = 9 \/ m = 10 \/ m = 11 \/ m = 12.
Proof. lia. Qed.

Ltac each_month H :=
  destruct (month_cases _ H) as
    [-> | [-> | [-> | [-> | [-> | [-> | [-> | [-> | [-> | [-> | [-> | ->]]]]]]]]]]].

(** A month ends before the next one starts. *)
Lemma days_before_month_next (y m : Z) :
  1 <= m <= 12 ->
  days_before_month y m + days_in_month y m = days_before_month y (m + 1).
Proof.
  intros H; each_month H;
    unfold days_before_month, days_in_month; simpl;
    destruct (is_leap y); reflexivity.
Qed.

Lemma days_before_month_mono (y m1 m2 : Z) :
  1 <= m1 -> m1 <= m2 -> m2 <= 13 ->
  days_before_month y m1 <= days_before_month y m2.
Proof.
  intros H1 H12 H2.
  assert (Hm1 : m1 = 1 \/ m1 = 2 \/ m1 = 3 \/ m1 = 4 \/ m1 = 5 \/ m1 = 6 \/
    m1 = 7 \/ m1 = 8 \/ m1 = 9 \/ m1 = 10 \/ m1 = 11 \/ m1 = 12 \/ m1 = 13)
    by lia.
  assert (Hm2 : m2 = 1 \/ m2 = 2 \/ m2 = 3 \/ m2 = 4 \/ m2 = 5 \/ m2 = 6 \/
    m2 = 7 \/ m2 = 8 \/ m2 = 9 \/ m2 = 10 \/ m2 = 11 \/ m2 = 12 \/ m2 = 13)
    by lia.
  unfold days_before_month.
  repeat (destruct Hm1 as [-> | Hm1]); try subst m1;
    repeat (destruct Hm2 as [-> | Hm2]); try subst m2;
    try lia; simpl; destruct (is_leap y); simpl; lia.
Qed.

Lemma days_before_month_13 (y : Z) :
  days_before_month y 13 = 365 + (if is_leap y then 1 else 0).
Proof. unfold days_before_month; simpl; destruct (is_leap y); reflexivity. Qed.

(** The day number of a valid date lies within its year. *)
Lemma toordinal_in_year (d : date) :
  valid_date d ->
  days_before_year (year d) < toordinal d <= days_before_year (year d + 1).
Proof.
  intros (Hy & Hm & Hd).
  unfold toordinal, ymd2ord.
  rewrite days_before_year_succ.
  pose proof (days_before_month_13 (year d)) as H13.
  pose proof (days_before_month_next (year d) (month d) Hm) as Hn.
  pose proof (days_before_month_mono (year d) 1 (month d)) as H1.
  pose proof (days_before_month_mono (year d) (month d + 1) 13) as H2.
  assert (days_before_month (year d) 1 = 0) as H0 by reflexivity.
  lia.
Qed.

(** Earlier dates have smaller day numbers. *)
Lemma toordinal_lt (a b : date) :
  valid_date a -> valid_date b ->
  date_compare a b = Lt -> toordinal a < toordinal b.
Proof.
  intros Ha Hb Hc.
  pose proof (toordinal_in_year a Ha) as Ia.
  pose proof (toordinal_in_year b Hb) as Ib.
  destruct Ha as (_ & Hma & Hda), Hb as (_ & Hmb & Hdb).
  unfold date_compare in Hc.
  destruct (Z.compare_spec (year a) (year b)) as [Ey | Ly | Gy];
    try discriminate.
  - destruct (Z.compare_spec (month a) (month b)) as [Em | Lm | Gm];
      try discriminate.
    + change (day a < day b) in Hc.
      unfold toordinal, ymd2ord. rewrite Ey, Em. lia.
    + unfold toordinal, ymd2ord. rewrite Ey in *.
      pose proof (days_before_month_next (year b) (month a) Hma) as Hn.
      pose proof (days_before_month_mono (year b) (month a + 1) (month b)).
      lia.
  - pose proof (days_before_year_mono (year a + 1) (year b)). lia.
Qed.

Lemma date_compare_antisym (a b : date) :
  date_compare b a = CompOpp (date_compare a b).
Proof.
  unfold date_compare.
  rewrite (Z.compare_antisym (year a)), (Z.compare_antisym (month a)),
    (Z.compare_antisym (day a)).
  destruct (year a ?= year b), (month a ?= month b), (day a ?= day b);
    reflexivity.
Qed.

Lemma date_compare_eq (a b : date) : date_compare a b = Eq -> a = b.
Proof.
  unfold date_compare; destruct a, b; simpl.
  destruct (Z.compare_spec year0 year1); try discriminate.
  destruct (Z.compare_spec month0 month1); try discriminate.
  intros Hd; apply Z.compare_eq in Hd; congruence.
Qed.

Lemma toordinal_le (a b : date) :
  valid_date a -> valid_date b -> date_le a b -> toordinal a <= toordinal b.
Proof.
  intros Ha Hb Hle; unfold date_le in Hle.
  destruct (date_compare a b) eqn:E.
  - apply date_compare_eq in E; subst; lia.
  - pose proof (toordinal_lt a b Ha Hb E); lia.
  - congruence.
Qed.

Lemma toordinal_gt (a b : date) :
  valid_date a -> valid_date b -> date_gt a b -> toordinal b < toordinal a.
Proof.
  intros Ha Hb Hgt; unfold date_gt in Hgt.
  apply toordinal_lt; auto.
  rewrite date_compare_antisym, Hgt; reflexivity.
Qed.

(** The day number of 1 January, by the 400, 100, 4 and 1 year cycles of the
    years before it. *)
Lemma days_before_year_split (Y : Z) :
  0 <= Y ->
  let a := Y / 400 in let b := Y mod 400 / 100 in
  let c := Y mod 400 mod 100 / 4 in let e := Y mod 400 mod 100 mod 4 in
  Y = 400 * a + 100 * b + 4 * c + e /\ 0 <= a /\ 0 <= b < 4 /\ 0 <= c < 25 /\ 0 <= e < 4 /\
  days_before_year (Y + 1) = DI400Y * a + DI100Y * b + DI4Y * c + 365 * e /\
  is_leap (Y + 1) = (e =? 3) && (negb (c =? 24) || (b =? 3)).
Proof.
  intros HY a b c e.
  unfold days_before_year, DI400Y, DI100Y, DI4Y; cbv zeta.
  replace (Y + 1 - 1) with Y by lia.
  assert (H1 : Y = 400 * a + 100 * b + 4 * c + e /\ 0 <= a /\ 0 <= b < 4 /\ 0 <= c < 25 /\ 0 <= e < 4).
  { subst a b c e. Z.div_mod_to_equations. lia. }
  split; [tauto|]. split; [tauto|]. split; [tauto|]. split; [tauto|]. split; [tauto|].
  destruct H1 as (H1 & Ha & Hb & Hc & He).
  split.
  - clearbody a b c e. rewrite H1.
    assert (E4 : (400 * a + 100 * b + 4 * c + e) / 4 = 100 * a + 25 * b + c)
      by (symmetry; apply Z.div_unique with e; lia).
    assert (E100 : (400 * a + 100 * b + 4 * c + e) / 100 = 4 * a + b)
      by (symmetry; apply Z.div_unique with (4 * c + e); lia).
    assert (E400 : (400 * a + 100 * b + 4 * c + e) / 400 = a)
      by (symmetry; apply Z.div_unique with (100 * b + 4 * c + e); lia).
    rewrite E4, E100, E400; lia.
  - clearbody a b c e. unfold is_leap.
    assert (M4 : (Y + 1) mod 4 = (e + 1) mod 4).
    { rewrite H1. replace (400 * a + 100 * b + 4 * c + e + 1) with (e + 1 + (100 * a + 25 * b + c) * 4) by lia.
      apply Z.mod_add; lia. }
    assert (M100 : (Y + 1) mod 100 = (4 * c + e + 1) mod 100).
    { rewrite H1. replace (400 * a + 100 * b + 4 * c + e + 1) with (4 * c + e + 1 + (4 * a + b) * 100) by lia.
      apply Z.mod_add; lia. }
    assert (M400 : (Y + 1) mod 400 = (100 * b + 4 * c + e + 1) mod 400).
    { rewrite H1. replace (400 * a + 100 * b + 4 * c + e + 1) with (100 * b + 4 * c + e + 1 + a * 400) by lia.
      apply Z.mod_add; lia. }
    rewrite M4, M100, M400; clear M4 M100 M400 H1.
    assert (P4 : (e + 1) mod 4 = 0 <-> e = 3)
      by (split; intros; Z.div_mod_to_equations; lia).
    assert (P100 : (4 * c + e + 1) mod 100 = 0 <-> c = 24 /\ e = 3)
      by (split; intros; Z.div_mod_to_equations; lia).
    assert (P400 : (100 * b + 4 * c + e + 1) mod 400 = 0
                   <-> b = 3 /\ c = 24 /\ e = 3)
      by (split; intros; Z.div_mod_to_equations; lia).
    destruct (Z.eqb_spec ((e + 1) mod 4) 0), (Z.eqb_spec ((4 * c + e + 1) mod 100) 0),
      (Z.eqb_spec ((100 * b + 4 * c + e + 1) mod 400) 0),
      (Z.eqb_spec e 3), (Z.eqb_spec c 24), (Z.eqb_spec b 3);
      cbn [andb orb negb]; try reflexivity; exfalso; tauto.
Qed.

(** Evaluation of the closed entries of the month tables. *)
Ltac is_Z_const v :=
  lazymatch v with Z0 => idtac | Zpos _ => idtac | Zneg _ => idtac end.
Ltac is_bool_const v :=
  lazymatch v with true => idtac | false => idtac end.

Ltac eval_months :=
  repeat match goal with
    | |- context [DAYS_BEFORE_MONTH ?x] =>
        let v := eval vm_compute in (DAYS_BEFORE_MONTH x) in
        is_Z_const v; change (DAYS_BEFORE_MONTH x) with v
    | |- context [DAYS_IN_MONTH ?x] =>
        let v := eval vm_compute in (DAYS_IN_MONTH x) in
        is_Z_const v; change (DAYS_IN_MONTH x) with v
    | |- context [2 <? ?x] =>
        let v := eval vm_compute in (2 <? x) in
        is_bool_const v; change (2 <? x) with v
    | |- context [?x =? 2] =>
        let v := eval vm_compute in (x =? 2) in
        is_bool_const v; change (x =? 2) with v
    end;
  cbn [andb orb].

(** The month and the day are found again from the day of the year. *)
Lemma month_day_ok (y m d : Z) (L : bool) :
  1 <= m <= 12 ->
  1 <= d <= DAYS_IN_MONTH m + (if (m =? 2) && L then 1 else 0) ->
  month_day y (DAYS_BEFORE_MONTH m + (if (2 <? m) && L then 1 else 0) + d - 1) L
  = mkdate y m d.
Proof.
  intros Hm Hd; unfold month_day; cbv zeta.
  rewrite Z.shiftr_div_pow2 by lia; change (2 ^ 5) with 32.
  revert Hd.
  destruct (month_cases m Hm) as
    [-> | [-> | [-> | [-> | [-> | [-> | [-> | [-> | [-> | [-> | [-> | ->]]]]]]]]]]];
    destruct L; eval_months; intros Hd.
  all: match goal with
       | |- context [(?t + 50) / 32] =>
           match goal with
           | |- _ = mkdate _ ?M _ =>
               let k := fresh "k" in
               let M1 := eval vm_compute in (M + 1) in
               remember ((t + 50) / 32) as k eqn:Ek;
               assert (Hk : k = M \/ k = M1)
                 by (subst k; Z.div_mod_to_equations; lia);
               clear Ek; destruct Hk as [-> | ->]
           end
       end.
  all: eval_months.
  all: match goal with
       | |- context [?a <? ?b] => destruct (Z.ltb_spec a b)
       end; try lia; f_equal; lia.
Qed.

Ltac eval_closed :=
  repeat match goal with
    | |- context [?x / ?k] =>
        let v := eval vm_compute in (x / k) in
        is_Z_const v; change (x / k) with v
    | |- context [?x mod ?k] =>
        let v := eval vm_compute in (x mod k) in
        is_Z_const v; change (x mod k) with v
    | |- context [?x =? ?k] =>
        let v := eval vm_compute in (x =? k) in
        is_bool_const v; change (x =? k) with v
    end;
  cbn [andb orb negb].

Lemma divmod (n k q r : Z) :
  0 <= r < k -> n = k * q + r -> n / k = q /\ n mod k = r.
Proof.
  intros Hr Hn; split; symmetry.
  - apply Z.div_unique with r; lia.
  - apply Z.mod_unique with q; lia.
Qed.

Lemma days_in_month_flag (y m : Z) :
  days_in_month y m
  = DAYS_IN_MONTH m + (if (m =? 2) && is_leap y then 1 else 0).
Proof.
  unfold days_in_month, DAYS_IN_MONTH.
  destruct (Z.eqb_spec m 2) as [-> | _]; destruct (is_leap y); simpl; lia.
Qed.

(** The date of the day number of a date is that date. *)
Lemma ord2ymd_toordinal (d : date) : valid_date d -> ord2ymd (toordinal d) = d.
Proof.
  destruct d as [y m dd]; unfold valid_date; cbn [year month day].
  intros (Hy & Hm & Hd).
  pose proof (days_before_month_next y m Hm) as Hnext.
  pose proof (days_before_month_mono y 1 m) as Hlo.
  pose proof (days_before_month_mono y (m + 1) 13) as Hhi.
  pose proof (days_before_month_13 y) as H13.
  assert (H1 : days_before_month y 1 = 0) by reflexivity.
  destruct (days_before_year_split (y - 1)) as (HY & Ha & Hb & Hc & He & Hdby & Hleap);
    [lia |].
  replace (y - 1 + 1) with y in Hdby, Hleap by lia.
  set (a := (y - 1) / 400) in *.
  set (b := (y - 1) mod 400 / 100) in *.
  set (c := (y - 1) mod 400 mod 100 / 4) in *.
  set (e := (y - 1) mod 400 mod 100 mod 4) in *.
  clearbody a b c e.
  unfold toordinal, ymd2ord; cbn [year month day].
  remember (days_before_month y m + dd - 1) as t eqn:Et.
  assert (Ht : 0 <= t < 365 + (if is_leap y then 1 else 0)) by lia.
  unfold ord2ymd; cbv zeta.
  replace (days_before_year y + days_before_month y m + dd - 1)
    with (DI400Y * a + (DI100Y * b + DI4Y * c + 365 * e + t)) by lia.
  unfold DI400Y, DI100Y, DI4Y in *.
  assert (Hle : is_leap y = true -> e = 3 /\ (c <> 24 \/ b = 3)).
  { rewrite Hleap; intros H; apply andb_true_iff in H; destruct H as (H3 & H).
    apply Z.eqb_eq in H3; split; [exact H3 |].
    apply orb_true_iff in H; destruct H as [H | H].
    - left; apply negb_true_iff, Z.eqb_neq in H; exact H.
    - right; apply Z.eqb_eq in H; exact H. }
  assert (Ht365 : t = 365 -> is_leap y = true /\ m = 12 /\ dd = 31).
  { intros Ht'; destruct (is_leap y) eqn:EL; [| lia].
    split; [reflexivity |].
    assert (D12 : days_before_month y 12 = 335)
      by (unfold days_before_month; rewrite EL; reflexivity).
    assert (m = 12).
    { destruct (Z.eq_dec m 12); [assumption | exfalso].
      pose proof (days_before_month_mono y (m + 1) 12); lia. }
    subst m; lia. }
  destruct (Z.eq_dec t 365) as [T | T].
  - destruct (Ht365 T) as (EL & -> & ->).
    destruct (Hle EL) as (-> & Hcb).
    clear Et Ht365; subst t.
    destruct (Z.eq_dec c 24) as [-> | Hc24].
    + assert (b = 3) by lia; subst b.
      destruct (divmod (146097 * a + (36524 * 3 + 1461 * 24 + 365 * 3 + 365))
                  146097 a 146096) as (E1 & E2); [lia | lia |].
      rewrite E1, E2; eval_closed.
      f_equal; lia.
    + destruct (divmod (146097 * a + (36524 * b + 1461 * c + 365 * 3 + 365))
                  146097 a (36524 * b + 1461 * c + 1460)) as (E1 & E2);
        [lia | lia |].
      rewrite E1, E2.
      destruct (divmod (36524 * b + 1461 * c + 1460) 36524 b (1461 * c + 1460))
        as (E3 & E4); [lia | lia |].
      rewrite E3, E4.
      destruct (divmod (1461 * c + 1460) 1461 c 1460) as (E5 & E6);
        [lia | lia |].
      rewrite E5, E6; eval_closed.
      f_equal; lia.
  - assert (Ht' : 0 <= t < 365) by (destruct (is_leap y); lia).
    destruct (divmod (146097 * a + (36524 * b + 1461 * c + 365 * e + t))
                146097 a (36524 * b + 1461 * c + 365 * e + t)) as (E1 & E2);
      [lia | lia |].
    rewrite E1, E2.
    destruct (divmod (36524 * b + 1461 * c + 365 * e + t) 36524 b
                (1461 * c + 365 * e + t)) as (E3 & E4); [lia | lia |].
    rewrite E3, E4.
    destruct (divmod (1461 * c + 365 * e + t) 1461 c (365 * e + t))
      as (E5 & E6); [lia | lia |].
    rewrite E5, E6.
    destruct (divmod (365 * e + t) 365 e t) as (E7 & E8); [lia | lia |].
    rewrite E7, E8.
    replace (e =? 4) with false by (symmetry; apply Z.eqb_neq; lia).
    replace (b =? 4) with false by (symmetry; apply Z.eqb_neq; lia).
    cbn [orb]; rewrite <- Hleap.
    replace (a * 400 + 1 + b * 100 + c * 4 + e) with y by lia.
    rewrite Et; unfold days_before_month.
    apply month_day_ok; [exact Hm |].
    rewrite <- days_in_month_flag; exact Hd.
Qed.

End CalendarFacts.

(** Facts about given dates are settled by evaluation. *)
Ltac concrete_date :=
  unfold valid_date, date_le, date_lt, date_gt; cbv; intuition discriminate.

(* ------------------------------------------------------------------ *)
(** ** [calculate_totals] *)

Lemma calculate_totals_length (df : DataFrame) :
  List.length (calculate_totals df) = List.length df.
Proof. apply length_map. Qed.

Lemma calculate_totals_nth (df : DataFrame) (i : nat) :
  nth_error (calculate_totals df) i
  = option_map
      (fun r => set_Daily_Total r (fmul (Hours_Worked r) (Hourly_Rate r)))
      (nth_error df i).
Proof. unfold calculate_totals; apply nth_error_map. Qed.

Lemma calculate_totals_column {A : Type} (col : row -> A) (df : DataFrame) :
  (forall r v, col (set_Daily_Total r v) = col r) ->
  map col (calculate_totals df) = map col df.
Proof.
  intros Hcol; unfold calculate_totals.
  rewrite map_map; apply map_ext; intros r; apply Hcol.
Qed.

Lemma calculate_totals_Daily_Total (df : DataFrame) :
  map Daily_Total (calculate_totals df)
  = map (fun r => fmul (Hours_Worked r) (Hourly_Rate r)) df.
Proof. unfold calculate_totals; rewrite map_map; reflexivity. Qed.

(** C1.  [calculate_totals] gives every row of its input a daily total: the
    result has the rows of the input, in the same positions and with the
    same hours and rate, and the daily total of each is the product of its
    hours and its rate, a missing value when either is missing.  So every
    row of the result satisfies the equation, and the column of daily totals
    is determined by the columns of hours and rates alone: two tables that
    agree on these two columns get the same daily totals, whatever their
    other columns held before.  Applying the operation again changes
    nothing. *)
Theorem calculate_totals_product (df : DataFrame) :
  List.length (calculate_totals df) = List.length df
  /\ (forall i r, nth_error df i = Some r ->
        exists r', nth_error (calculate_totals df) i = Some r'
          /\ Hours_Worked r' = Hours_Worked r
          /\ Hourly_Rate r' = Hourly_Rate r
          /\ Daily_Total r'
             = match Hours_Worked r, Hourly_Rate r with
               | Some h, Some rate => Some (h * rate)
               | _, _ => None
               end)
  /\ (forall r', In r' (calculate_totals df) ->
        Daily_Total r'
        = match Hours_Worked r', Hourly_Rate r' with
          | Some h, Some rate => Some (h * rate)
          | _, _ => None
          end)
  /\ (forall df',
        map Hours_Worked df' = map Hours_Worked df ->
        map Hourly_Rate df' = map Hourly_Rate df ->
        map Daily_Total (calculate_totals df')
        = map Daily_Total (calculate_totals df))
  /\ calculate_totals (calculate_totals df) = calculate_totals df.
Proof.
  split; [apply calculate_totals_length |].
  split; [| split; [| split]].
  - intros i r Hi; rewrite calculate_totals_nth, Hi; cbn [option_map].
    eexists; split; [reflexivity |].
    cbn [set_Daily_Total Hours_Worked Hourly_Rate Daily_Total].
    split; [reflexivity | split; [reflexivity |]].
    unfold fmul; destruct (Hours_Worked r), (Hourly_Rate r); reflexivity.
  - intros r' Hin; unfold calculate_totals in Hin.
    apply in_map_iff in Hin; destruct Hin as (r & <- & _).
    cbn [set_Daily_Total Hours_Worked Hourly_Rate Daily_Total].
    unfold fmul; destruct (Hours_Worked r), (Hourly_Rate r); reflexivity.
  - intros df' Hh Hr; rewrite !calculate_totals_Daily_Total.
    revert df' Hh Hr; induction df as [| r df IH]; intros [| r' df'];
      simpl; intros Hh Hr; try discriminate; [reflexivity |].
    injection Hh as Hh1 Hh2; injection Hr as Hr1 Hr2.
    rewrite Hh1, Hr1; f_equal; auto.
  - unfold calculate_totals; rewrite map_map; apply map_ext.
    intros r; reflexivity.
Qed.

(** C9.  [calculate_totals] changes the Daily Total column only: every other
    column, the number of rows and the position of each row are those of its
    input. *)
Theorem calculate_totals_frame (df : DataFrame) :
  map Date (calculate_totals df) = map Date df
  /\ map Day (calculate_totals df) = map Day df
  /\ map Hours_Worked (calculate_totals df) = map Hours_Worked df
  /\ map Hourly_Rate (calculate_totals df) = map Hourly_Rate df
  /\ map Tasks_Completed (calculate_totals df) = map Tasks_Completed df
  /\ map Week (calculate_totals df) = map Week df
  /\ map Month (calculate_totals df) = map Month df
  /\ map Employee_Name (calculate_totals df) = map Employee_Name df
  /\ List.length (calculate_totals df) = List.length df
  /\ (forall i r, nth_error df i = Some r ->
        exists v, nth_error (calculate_totals df) i
                  = Some (set_Daily_Total r v)).
Proof.
  repeat split;
    try (apply calculate_totals_column; intros; reflexivity);
    try apply calculate_totals_length.
  intros i r Hi; rewrite calculate_totals_nth, Hi; simpl; eauto.
Qed.

(** *** The merge, row by row *)

Lemma update_from_nth (k : nat) (df : DataFrame) (ed : edited_frame) (i : nat) :
  nth_error (update_from k df ed) i
  = option_map (fun r => merged r (loc (k + i) ed)) (nth_error df i).
Proof.
  revert k i; induction df as [| r df IH]; intros k [| i]; simpl;
    try reflexivity.
  - rewrite Nat.add_0_r; reflexivity.
  - rewrite IH; replace (S k + i)%nat with (k + S i)%nat by lia; reflexivity.
Qed.

Lemma update_from_length (k : nat) (df : DataFrame) (ed : edited_frame) :
  List.length (update_from k df ed) = List.length df.
Proof. revert k; induction df; intros k; simpl; auto. Qed.

Lemma rerun_nth (df : DataFrame) (ed : edited_frame) (i : nat) :
  nth_error (rerun df ed) i
  = option_map
      (fun r => let r' := merged r (loc i ed) in
                set_Daily_Total r' (fmul (Hours_Worked r') (Hourly_Rate r')))
      (nth_error df i).
Proof.
  unfold rerun, update; rewrite calculate_totals_nth, update_from_nth.
  destruct (nth_error df i); reflexivity.
Qed.

(* ------------------------------------------------------------------ *)
(** ** [init_timesheet] *)

Lemma date_range_length (s e : Z) :
  (s <= e)%Z -> Z.of_nat (List.length (date_range s e)) = (e - s + 1)%Z.
Proof.
  intros H; unfold date_range; rewrite length_map, length_seq; lia.
Qed.

Lemma date_range_nth (s e : Z) (i : nat) :
  (i < List.length (date_range s e))%nat ->
  nth_error (date_range s e) i = Some (s + Z.of_nat i)%Z.
Proof.
  unfold date_range; rewrite length_map, length_seq; intros H.
  rewrite nth_error_map, nth_error_seq.
  destruct (Nat.ltb_spec i (Z.to_nat (e - s + 1))); [reflexivity | lia].
Qed.

Lemma date_range_In (s e d : Z) :
  In d (date_range s e) <-> (s <= d <= e)%Z.
Proof.
  unfold date_range; rewrite in_map_iff; split.
  - intros (i & <- & Hi); apply in_seq in Hi; lia.
  - intros H; exists (Z.to_nat (d - s)); split; [lia |].
    apply in_seq; lia.
Qed.

Lemma date_range_from_sorted (s : Z) (n k : nat) :
  StronglySorted Z.lt (map (fun i => (s + Z.of_nat i)%Z) (seq k n)).
Proof.
  revert k; induction n as [| n IH]; intros k; simpl; constructor.
  - apply IH.
  - apply Forall_forall; intros d Hd.
    apply in_map_iff in Hd; destruct Hd as (i & <- & Hi).
    apply in_seq in Hi; lia.
Qed.

Lemma date_range_sorted (s e : Z) : StronglySorted Z.lt (date_range s e).
Proof. apply date_range_from_sorted. Qed.

Lemma strictly_sorted_NoDup (l : list Z) : StronglySorted Z.lt l -> NoDup l.
Proof.
  induction 1 as [| a l Hs IH Ha]; constructor; auto.
  intros Hin; rewrite Forall_forall in Ha; specialize (Ha a Hin); lia.
Qed.

Lemma date_range_empty (s e : Z) : (e < s)%Z -> date_range s e = [].
Proof.
  intros H; unfold date_range.
  replace (Z.to_nat (e - s + 1)) with O by lia; reflexivity.
Qed.

Lemma init_timesheet_Date (start end_ : date) (name : string) :
  map Date (init_timesheet start end_ name)
  = date_range (toordinal start) (toordinal end_).
Proof.
  unfold init_timesheet; cbv zeta; rewrite map_map; simpl; apply map_id.
Qed.

(** C2.  For valid dates with [start <= end], the table has
    [(end - start).days + 1] rows; row [i] is the day [i] days after
    [start], with hours, rate and total 0 and an empty note; the first row
    is the day [start] and the last row the day [end]; the dates of the
    table are exactly the days of the inclusive range, pairwise distinct and
    in strictly ascending order. *)
Theorem init_timesheet_rows (start end_ : date) (name : string) :
  valid_date start -> valid_date end_ -> date_le start end_ ->
  let df := init_timesheet start end_ name in
  Z.of_nat (List.length df) = (days_between start end_ + 1)%Z
  /\ (forall i, (i < List.length df)%nat ->
        exists r, nth_error df i = Some r
          /\ Date r = (toordinal start + Z.of_nat i)%Z
          /\ Hours_Worked r = Some 0 /\ Hourly_Rate r = Some 0
          /\ Daily_Total r = Some 0
          /\ Tasks_Completed r = Some EmptyString
          /\ Employee_Name r = name)
  /\ (exists r, nth_error df 0 = Some r /\ ord2ymd (Date r) = start)
  /\ (exists r, nth_error df (List.length df - 1) = Some r
                /\ ord2ymd (Date r) = end_)
  /\ (forall d, In d (map Date df)
        <-> (toordinal start <= d <= toordinal end_)%Z)
  /\ NoDup (map Date df)
  /\ StronglySorted Z.lt (map Date df).
Proof.
  intros Hs He Hle df.
  pose proof (CalendarFacts.toordinal_le start end_ Hs He Hle) as Hord.
  assert (Hlen : List.length df
                 = List.length (date_range (toordinal start) (toordinal end_))).
  { unfold df, init_timesheet; cbv zeta; apply length_map. }
  assert (Hn : Z.of_nat (List.length df)
               = (toordinal end_ - toordinal start + 1)%Z).
  { rewrite Hlen; apply date_range_length; exact Hord. }
  assert (Hnth : forall i, (i < List.length df)%nat ->
            nth_error df i
            = Some (init_row name (toordinal start + Z.of_nat i)%Z)).
  { intros i Hi; rewrite Hlen in Hi.
    unfold df, init_timesheet; cbv zeta.
    rewrite nth_error_map, date_range_nth by assumption; reflexivity. }
  split; [| split; [| split; [| split; [| split; [| split]]]]].
  - exact Hn.
  - intros i Hi; eexists; split; [apply Hnth; exact Hi | repeat split].
  - eexists; split; [apply Hnth; lia |].
    cbn [Date init_row]; rewrite Z.add_0_r.
    apply CalendarFacts.ord2ymd_toordinal; exact Hs.
  - eexists; split; [apply Hnth; lia |].
    cbn [Date init_row].
    replace (toordinal start + Z.of_nat (List.length df - 1))%Z
      with (toordinal end_) by lia.
    apply CalendarFacts.ord2ymd_toordinal; exact He.
  - intros d; unfold df; rewrite init_timesheet_Date; apply date_range_In.
  - unfold df; rewrite init_timesheet_Date.
    apply strictly_sorted_NoDup, date_range_sorted.
  - unfold df; rewrite init_timesheet_Date; apply date_range_sorted.
Qed.

Lemma init_timesheet_rows_witness :
  let start := mkdate 2025 1 1 in
  let end_ := mkdate 2025 1 3 in
  let df := init_timesheet start end_ "Alex" in
  Z.of_nat (List.length df) = (days_between start end_ + 1)%Z
  /\ (forall i, (i < List.length df)%nat ->
        exists r, nth_error df i = Some r
          /\ Date r = (toordinal start + Z.of_nat i)%Z
          /\ Hours_Worked r = Some 0 /\ Hourly_Rate r = Some 0
          /\ Daily_Total r = Some 0
          /\ Tasks_Completed r = Some EmptyString
          /\ Employee_Name r = "Alex"%string)
  /\ (exists r, nth_error df 0 = Some r /\ ord2ymd (Date r) = start)
  /\ (exists r, nth_error df (List.length df - 1) = Some r
                /\ ord2ymd (Date r) = end_)
  /\ (forall d, In d (map Date df)
        <-> (toordinal start <= d <= toordinal end_)%Z)
  /\ NoDup (map Date df)
  /\ StronglySorted Z.lt (map Date df).
Proof.
  apply (init_timesheet_rows (mkdate 2025 1 1) (mkdate 2025 1 3) "Alex").
  - concrete_date.
  - concrete_date.
  - concrete_date.
Defined.

(* ------------------------------------------------------------------ *)
(** ** Grouping *)


Section GroupByFacts.
Context {K : Type}.
Variable cmp : K -> K -> comparison.
Hypothesis cmp_eq : forall a b, cmp a b = Eq -> a = b.
Hypothesis cmp_refl : forall a, cmp a a = Eq.
Hypothesis cmp_gt_lt : forall a b, cmp a b = Gt -> cmp b a = Lt.
Hypothesis cmp_trans :
  forall a b c, cmp a b = Lt -> cmp b c = Lt -> cmp a c = Lt.

Let lt (a b : K) : Prop := cmp a b = Lt.

Lemma lt_neq (a b : K) : lt a b -> b <> a.
Proof. unfold lt; intros H ->; rewrite cmp_refl in H; discriminate. Qed.

Lemma key_eqb_true (a b : K) : key_eqb cmp a b = true <-> a = b.
Proof.
  unfold key_eqb; split.
  - destruct (cmp a b) eqn:E; try discriminate; intros _; auto.
  - intros ->; rewrite cmp_refl; reflexivity.
Qed.

Lemma group_add_keys (k : K) (r : row) (gs : list (K * list row)) (k' : K) :
  In k' (map fst (group_add cmp k r gs)) <-> k' = k \/ In k' (map fst gs).
Proof.
  induction gs as [| [k0 rs0] gs IH]; simpl.
  - intuition.
  - destruct (cmp k k0) eqn:E; simpl.
    + apply cmp_eq in E; subst; intuition.
    + intuition.
    + rewrite IH; intuition.
Qed.

Lemma group_add_sorted (k : K) (r : row) (gs : list (K * list row)) :
  StronglySorted lt (map fst gs) ->
  StronglySorted lt (map fst (group_add cmp k r gs)).
Proof.
  induction gs as [| [k0 rs0] gs IH]; simpl; intros Hs.
  - repeat constructor.
  - inversion Hs as [| ? ? Hs' Hall]; subst.
    destruct (cmp k k0) eqn:E; simpl.
    + constructor; assumption.
    + constructor; [exact Hs |].
      constructor; [exact E |].
      eapply Forall_impl; [| exact Hall].
      intros a Ha; exact (cmp_trans _ _ _ E Ha).
    + constructor; [apply IH; assumption |].
      apply Forall_forall; intros a Ha.
      apply group_add_keys in Ha; destruct Ha as [-> | Ha].
      * apply cmp_gt_lt; assumption.
      * rewrite Forall_forall in Hall; auto.
Qed.

(** Where a group of [group_add k r gs] comes from: it is the group of [k],
    which got [r] as its last row, or a group of [gs] with another key. *)
Lemma group_add_In (k : K) (r : row) (gs : list (K * list row))
  (k' : K) (rs' : list row) :
  StronglySorted lt (map fst gs) ->
  In (k', rs') (group_add cmp k r gs) ->
  (k' = k /\ exists rs, rs' = rs ++ [r]
     /\ (In (k, rs) gs \/ (rs = [] /\ ~ In k (map fst gs))))
  \/ (k' <> k /\ In (k', rs') gs).
Proof.
  induction gs as [| [k0 rs0] gs IH]; simpl; intros Hs Hin.
  - destruct Hin as [Hin | []]; injection Hin as <- <-.
    left; split; [reflexivity |]; exists []; split; [reflexivity |].
    right; split; [reflexivity | tauto].
  - inversion Hs as [| ? ? Hs' Hall]; subst.
    rewrite Forall_forall in Hall.
    destruct (cmp k k0) eqn:E; simpl in Hin.
    + apply cmp_eq in E; subst k0.
      destruct Hin as [Hin | Hin].
      * injection Hin as <- <-.
        left; split; [reflexivity |]; exists rs0; split; [reflexivity |].
        left; left; reflexivity.
      * right; split; [| right; exact Hin].
        apply lt_neq, Hall, in_map_iff; exists (k', rs'); auto.
    + destruct Hin as [Hin | Hin].
      * injection Hin as <- <-.
        left; split; [reflexivity |]; exists []; split; [reflexivity |].
        right; split; [reflexivity |].
        intros [-> | Hk].
        -- rewrite cmp_refl in E; discriminate.
        -- apply Hall in Hk.
           pose proof (cmp_trans _ _ _ E Hk) as Hkk.
           rewrite cmp_refl in Hkk; discriminate.
      * right; split; [| exact Hin].
        destruct Hin as [Hin | Hin].
        -- injection Hin as <- <-; apply lt_neq; exact E.
        -- apply lt_neq, (cmp_trans _ _ _ E), Hall, in_map_iff.
           exists (k', rs'); auto.
    + assert (Hk0 : k0 <> k).
      { intros ->; rewrite cmp_refl in E; discriminate. }
      destruct Hin as [Hin | Hin].
      * injection Hin as <- <-; right; split; [exact Hk0 | left; reflexivity].
      * destruct (IH Hs' Hin) as [(-> & rs & -> & Hrs) | (Hne & Hin')].
        -- left; split; [reflexivity |]; exists rs; split; [reflexivity |].
           destruct Hrs as [Hrs | (-> & Hno)]; [left; right; exact Hrs |].
           right; split; [reflexivity |].
           intros [Hk | Hk]; [exact (Hk0 Hk) | exact (Hno Hk)].
        -- right; split; [exact Hne | right; exact Hin'].
Qed.

Variable key : row -> K.

Lemma groupby_snoc (df : DataFrame) (r : row) :
  groupby cmp key (df ++ [r]) = group_add cmp (key r) r (groupby cmp key df).
Proof. unfold groupby; rewrite fold_left_app; reflexivity. Qed.

Lemma rows_with_snoc (k : K) (df : DataFrame) (r : row) :
  rows_with cmp key k (df ++ [r])
  = rows_with cmp key k df ++ (if key_eqb cmp (key r) k then [r] else []).
Proof. unfold rows_with; rewrite filter_app; reflexivity. Qed.

Lemma rows_with_nil (k : K) (df : DataFrame) :
  ~ In k (map key df) -> rows_with cmp key k df = [].
Proof.
  unfold rows_with; induction df as [| r df IH]; simpl; intros Hno.
  - reflexivity.
  - destruct (key_eqb cmp (key r) k) eqn:E.
    + apply key_eqb_true in E; tauto.
    + apply IH; tauto.
Qed.

(** What [groupby] returns: one group per key of the table, in strictly
    ascending key order, holding the rows of that key in table order. *)
Lemma groupby_spec (df : DataFrame) :
  StronglySorted lt (map fst (groupby cmp key df))
  /\ (forall k, In k (map fst (groupby cmp key df)) <-> In k (map key df))
  /\ (forall k rs, In (k, rs) (groupby cmp key df) ->
        rs = rows_with cmp key k df).
Proof.
  induction df as [| r df (Hs & Hk & Hg)] using rev_ind.
  - split; [constructor | split; [reflexivity | intros ? ? []]].
  - rewrite groupby_snoc; split; [| split].
    + apply group_add_sorted; exact Hs.
    + intros k; rewrite group_add_keys, Hk, map_app, in_app_iff; simpl.
      intuition.
    + intros k rs Hin; rewrite rows_with_snoc.
      destruct (group_add_In _ _ _ _ _ Hs Hin)
        as [(-> & rs0 & -> & Hrs) | (Hne & Hin')].
      * replace (key_eqb cmp (key r) (key r)) with true
          by (symmetry; apply key_eqb_true; reflexivity).
        f_equal.
        destruct Hrs as [Hrs | (-> & Hno)]; [apply Hg; exact Hrs |].
        symmetry; apply rows_with_nil; rewrite <- Hk; exact Hno.
      * destruct (key_eqb cmp (key r) k) eqn:E.
        -- apply key_eqb_true in E; congruence.
        -- rewrite app_nil_r; apply Hg; exact Hin'.
Qed.

Lemma sorted_keys_NoDup (ks : list K) : StronglySorted lt ks -> NoDup ks.
Proof.
  induction 1 as [| a l Hs IH Ha]; constructor; auto.
  intros Hin; rewrite Forall_forall in Ha; specialize (Ha a Hin).
  unfold lt in Ha; rewrite cmp_refl in Ha; discriminate.
Qed.

End GroupByFacts.

(** The two summaries keep the keys of the groups and round their sums. *)
Lemma summary_keys {K : Type} (cmp : K -> K -> comparison) (key : row -> K)
  (df : DataFrame) :
  map fst (summary cmp key df) = map fst (groupby cmp key df).
Proof.
  unfold summary, round_2, agg_sum; rewrite !map_map; reflexivity.
Qed.

Lemma summary_In {K : Type} (cmp : K -> K -> comparison) (key : row -> K)
  (df : DataFrame) (k : K) (h e : Q) :
  In (k, (h, e)) (summary cmp key df) ->
  exists rs, In (k, rs) (groupby cmp key df)
    /\ h = round2 (sum (map Hours_Worked rs))
    /\ e = round2 (sum (map Daily_Total rs)).
Proof.
  unfold summary, round_2, agg_sum; rewrite map_map; intros Hin.
  apply in_map_iff in Hin; destruct Hin as ([k0 rs] & Heq & Hin).
  simpl in Heq; injection Heq as <- <- <-.
  exists rs; auto.
Qed.







(** *** The two orders used as keys *)

Lemma Z_compare_gt_lt (a b : Z) : (a ?= b)%Z = Gt -> (b ?= a)%Z = Lt.
Proof. intros H; rewrite Z.compare_antisym, H; reflexivity. Qed.

Lemma Z_compare_trans (a b c : Z) :
  (a ?= b)%Z = Lt -> (b ?= c)%Z = Lt -> (a ?= c)%Z = Lt.
Proof. exact (Z.lt_trans a b c). Qed.

Lemma string_compare_eq (a b : string) : String_as_OT.compare a b = Eq -> a = b.
Proof.
  intros H; destruct (String_as_OT.compare_spec a b); congruence.
Qed.

Lemma string_compare_refl (a : string) : String_as_OT.compare a a = Eq.
Proof.
  destruct (String_as_OT.compare_spec a a) as [_ | H | H];
    [reflexivity | |]; exfalso; exact (StrictOrder_Irreflexive a H).
Qed.

Lemma string_compare_gt_lt (a b : string) :
  String_as_OT.compare a b = Gt -> String_as_OT.compare b a = Lt.
Proof.
  intros H; destruct (String_as_OT.compare_spec a b) as [_ | _ | Hlt];
    try discriminate; exact Hlt.
Qed.

Lemma string_compare_trans (a b c : string) :
  String_as_OT.compare a b = Lt -> String_as_OT.compare b c = Lt ->
  String_as_OT.compare a c = Lt.
Proof. exact (StrictOrder_Transitive a b c). Qed.

Lemma key_eqb_Z (a b : Z) : key_eqb Z.compare a b = Z.eqb a b.
Proof.
  unfold key_eqb; destruct (Z.compare_spec a b), (Z.eqb_spec a b);
    congruence || lia.
Qed.

Lemma key_eqb_string (a b : string) :
  key_eqb String_as_OT.compare a b = String.eqb a b.
Proof.
  unfold key_eqb; destruct (String.eqb_spec a b) as [-> | Hne].
  - rewrite string_compare_refl; reflexivity.
  - destruct (String_as_OT.compare a b) eqn:E; try reflexivity.
    apply string_compare_eq in E; contradiction.
Qed.

Lemma rows_with_Week (w : Z) (df : DataFrame) :
  rows_with Z.compare Week w df = filter (fun r => Z.eqb (Week r) w) df.
Proof. apply filter_ext; intros r; apply key_eqb_Z. Qed.

Lemma rows_with_Month (m : string) (df : DataFrame) :
  rows_with String_as_OT.compare Month m df
  = filter (fun r => String.eqb (Month r) m) df.
Proof. apply filter_ext; intros r; apply key_eqb_string. Qed.

Lemma weekly_groups (df : DataFrame) :
  StronglySorted Z.lt (map fst (groupby Z.compare Week df))
  /\ (forall k, In k (map fst (groupby Z.compare Week df))
        <-> In k (map Week df))
  /\ (forall k rs, In (k, rs) (groupby Z.compare Week df) ->
        rs = filter (fun r => Z.eqb (Week r) k) df).
Proof.
  destruct (groupby_spec Z.compare Z.compare_eq Z.compare_refl
              Z_compare_gt_lt Z_compare_trans Week df) as (Hs & Hk & Hg).
  split; [exact Hs | split; [exact Hk |]].
  intros k rs Hin; rewrite <- rows_with_Week; auto.
Qed.

Lemma monthly_groups (df : DataFrame) :
  StronglySorted (fun a b => String_as_OT.compare a b = Lt)
    (map fst (groupby String_as_OT.compare Month df))
  /\ (forall k, In k (map fst (groupby String_as_OT.compare Month df))
        <-> In k (map Month df))
  /\ (forall k rs, In (k, rs) (groupby String_as_OT.compare Month df) ->
        rs = filter (fun r => String.eqb (Month r) k) df).
Proof.
  destruct (groupby_spec String_as_OT.compare string_compare_eq
              string_compare_refl string_compare_gt_lt string_compare_trans
              Month df) as (Hs & Hk & Hg).
  split; [exact Hs | split; [exact Hk |]].
  intros k rs Hin; rewrite <- rows_with_Month; auto.
Qed.

(* ------------------------------------------------------------------ *)
(** ** The monthly summary *)

(** C3, as stated, fails: the groups of the monthly summary are not in the
    order in which the months first occur.  For the two days 2025-01-31 and
    2025-02-01 the summary lists February before January. *)
Lemma monthly_summary_order_counterexample :
  let df := init_timesheet (mkdate 2025 1 31) (mkdate 2025 2 1) "Alex" in
  map Month df = ["January"; "February"]%string
  /\ first_occurrence (map Month df) = ["January"; "February"]%string
  /\ map fst (monthly_summary df) = ["February"; "January"]%string
  /\ map fst (monthly_summary df) <> first_occurrence (map Month df).
Proof.
  cbv zeta; repeat split; try (vm_compute; reflexivity).
  vm_compute; discriminate.
Qed.

(** C3, amended.  The monthly summary has one group per month name of the
    table, holding the sums of the hours and of the daily totals of the rows
    of that name, each rounded to 2 decimals; its groups are in strictly
    ascending order of the month names as strings (alphabetical order). *)
Theorem monthly_summary_alphabetical (df : DataFrame) :
  StronglySorted (fun a b => String_as_OT.compare a b = Lt)
    (map fst (monthly_summary df))
  /\ (forall m, In m (map fst (monthly_summary df)) <-> In m (map Month df))
  /\ (forall m h e, In (m, (h, e)) (monthly_summary df) ->
        let rs := filter (fun r => String.eqb (Month r) m) df in
        h = round2 (sum (map Hours_Worked rs))
        /\ e = round2 (sum (map Daily_Total rs))).
Proof.
  destruct (monthly_groups df) as (Hs & Hk & Hg).
  unfold monthly_summary; rewrite summary_keys.
  split; [exact Hs | split; [exact Hk |]].
  intros m h e Hin; cbv zeta.
  apply summary_In in Hin; destruct Hin as (rs0 & Hin & -> & ->).
  apply Hg in Hin; subst rs0; split; reflexivity.
Qed.

(* ------------------------------------------------------------------ *)
(** ** Conservation of the sums *)

Lemma sum_spec_total (col : row -> cell) (df : DataFrame) :
  sum (map col df) == spec_total col df.
Proof.
  induction df as [| r df IH]; simpl.
  - reflexivity.
  - destruct (col r); simpl; rewrite IH; ring.
Qed.

Lemma flat_map_nil {A B : Type} (l : list A) :
  flat_map (fun _ : A => @nil B) l = [].
Proof. induction l; simpl; auto. Qed.

Lemma flat_map_same {A B : Type} (f g : A -> list B) (l : list A) :
  (forall a, In a l -> f a = g a) -> flat_map f l = flat_map g l.
Proof.
  induction l as [| a l IH]; intros H; [reflexivity |]; cbn [flat_map].
  rewrite (H a (or_introl eq_refl)), IH; [reflexivity |].
  intros b Hb; apply H; right; exact Hb.
Qed.

(** Putting a row in front of the table puts it in front of the group of
    its key. *)
Lemma groups_cons {K : Type} (eqb : K -> K -> bool) (key : row -> K)
  (keys : list K) (r : row) (df : DataFrame) :
  (forall a b, eqb a b = true <-> a = b) ->
  NoDup keys -> In (key r) keys ->
  Permutation
    (flat_map (fun k => filter (fun r' => eqb (key r') k) (r :: df)) keys)
    (r :: flat_map (fun k => filter (fun r' => eqb (key r') k) df) keys).
Proof.
  intros Heq Hnd; induction Hnd as [| k ks Hk Hnd IH]; intros Hin;
    [destruct Hin |].
  cbn [flat_map].
  assert (Ehead : filter (fun r' => eqb (key r') k) (r :: df)
                  = if eqb (key r) k
                    then r :: filter (fun r' => eqb (key r') k) df
                    else filter (fun r' => eqb (key r') k) df)
    by reflexivity.
  rewrite Ehead; clear Ehead.
  destruct (eqb (key r) k) eqn:E.
  - apply Heq in E; subst k.
    replace (flat_map (fun k => filter (fun r' => eqb (key r') k) (r :: df)) ks)
      with (flat_map (fun k => filter (fun r' => eqb (key r') k) df) ks);
      [reflexivity |].
    apply flat_map_same; intros k Hkin; cbn [filter].
    destruct (eqb (key r) k) eqn:E'; [| reflexivity].
    apply Heq in E'; subst k; contradiction.
  - destruct Hin as [-> | Hin].
    + assert (T : eqb (key r) (key r) = true) by (apply Heq; reflexivity).
      congruence.
    + rewrite (IH Hin); symmetry; apply Permutation_middle.
Qed.

(** The groups of a table, put one after the other, are the rows of the
    table, each of them once. *)
Lemma groups_partition {K : Type} (eqb : K -> K -> bool) (key : row -> K)
  (keys : list K) (df : DataFrame) :
  (forall a b, eqb a b = true <-> a = b) ->
  NoDup keys -> (forall r, In r df -> In (key r) keys) ->
  Permutation
    (flat_map (fun k => filter (fun r => eqb (key r) k) df) keys) df.
Proof.
  intros Heq Hnd; induction df as [| r df IH]; intros Hin.
  - cbn [filter]; rewrite flat_map_nil; constructor.
  - rewrite (groups_cons eqb key keys r df Heq Hnd)
      by (apply Hin; left; reflexivity).
    constructor; apply IH; intros r' Hr'; apply Hin; right; exact Hr'.
Qed.

Lemma rint_comp (a b : Q) : a == b -> rint a = rint b.
Proof.
  intros H; unfold rint; cbv zeta.
  rewrite (Qfloor_comp a b H).
  assert (E : a - inject_Z (Qfloor b) == b - inject_Z (Qfloor b))
    by (rewrite H; reflexivity).
  rewrite (Qcompare_comp _ _ E (1 # 2) (1 # 2) (Qeq_refl _)); reflexivity.
Qed.

Lemma round2_comp (a b : Q) : a == b -> round2 a == round2 b.
Proof.
  intros H; unfold round2.
  rewrite (rint_comp (a * 100) (b * 100)) by (rewrite H; reflexivity).
  reflexivity.
Qed.

(** What a summary shows for a group, with the sums as the specification
    words them. *)
Lemma summary_entry (rs : list row) (h e : Q) :
  h = round2 (sum (map Hours_Worked rs)) ->
  e = round2 (sum (map Daily_Total rs)) ->
  h == round2 (spec_total Hours_Worked rs)
  /\ e == round2 (spec_total Daily_Total rs).
Proof.
  intros -> ->; split; apply round2_comp, sum_spec_total.
Qed.

(** C4, as stated, fails: the rounded sums of the groups need not add up to
    the sums of the table.  Two days in different weeks and months, each
    with half an hour at a rate of 0.25, earn 0.125 each: every group shows
    0.12, the groups add up to 0.24 and the table to 0.25. *)
Lemma conservation_counterexample :
  let half := mkedit (Some (1 # 2)) (Some (1 # 4)) (Some EmptyString) in
  let df := rerun (init_timesheet (mkdate 2025 8 31) (mkdate 2025 9 1) "Alex")
              [(0%nat, half); (1%nat, half)] in
  map Week df = [35; 36]%Z
  /\ map Month df = ["August"; "September"]%string
  /\ map Daily_Total df = [Some (1 # 8); Some (1 # 8)]
  /\ total_earnings df == 1 # 4
  /\ map snd (weekly_summary df) = [(50 # 100, 12 # 100); (50 # 100, 12 # 100)]
  /\ map snd (monthly_summary df) = [(50 # 100, 12 # 100); (50 # 100, 12 # 100)]
  /\ sum_earnings (weekly_summary df) == 24 # 100
  /\ sum_earnings (monthly_summary df) == 24 # 100
  /\ ~ sum_earnings (weekly_summary df) == total_earnings df
  /\ ~ sum_earnings (monthly_summary df) == total_earnings df.
Proof.
  cbv zeta; repeat split; try (vm_compute; reflexivity);
    intros H; vm_compute in H; discriminate.
Qed.

(** C4, amended.  The week groups and the month groups each split the rows
    of the table: the weekly summary has one group per week number of the
    table, in strictly ascending order, the monthly summary one group per
    month name, every row is in the group of its week and in the group of
    its month, and the groups put one after the other hold the rows of the
    table, each once.  What a summary shows for a group is the sum of the
    hours and the sum of the daily totals of the rows of the group, each
    rounded to 2 decimals, ties to the even digit: a sum of 0.125 shows as
    0.12 and a sum of 0.375 as 0.38.  So the rows and their values are
    conserved by the grouping, and the shown sums differ from the sums of
    the table by what the rounding of each group takes away. *)
Theorem summaries_split_the_rows (df : DataFrame) :
  let weeks := map fst (weekly_summary df) in
  let months := map fst (monthly_summary df) in
  let week w := filter (fun r => Z.eqb (Week r) w) df in
  let month m := filter (fun r => String.eqb (Month r) m) df in
  StronglySorted Z.lt weeks
  /\ NoDup weeks /\ NoDup months
  /\ (forall r, In r df -> In (Week r) weeks /\ In (Month r) months)
  /\ (forall w, In w weeks -> week w <> [])
  /\ (forall m, In m months -> month m <> [])
  /\ Permutation (flat_map week weeks) df
  /\ Permutation (flat_map month months) df
  /\ (forall w h e, In (w, (h, e)) (weekly_summary df) ->
        h == round2 (spec_total Hours_Worked (week w))
        /\ e == round2 (spec_total Daily_Total (week w)))
  /\ (forall m h e, In (m, (h, e)) (monthly_summary df) ->
        h == round2 (spec_total Hours_Worked (month m))
        /\ e == round2 (spec_total Daily_Total (month m)))
  /\ round2 (1 # 8) == 12 # 100 /\ round2 (3 # 8) == 38 # 100.
Proof.
  cbv zeta.
  destruct (weekly_groups df) as (Ws & Wk & Wg).
  destruct (monthly_groups df) as (Ms & Mk & Mg).
  unfold weekly_summary, monthly_summary; rewrite !summary_keys.
  assert (Wn : NoDup (map fst (groupby Z.compare Week df))).
  { apply (sorted_keys_NoDup Z.compare Z.compare_refl); exact Ws. }
  assert (Mn : NoDup (map fst (groupby String_as_OT.compare Month df))).
  { apply (sorted_keys_NoDup String_as_OT.compare string_compare_refl);
      exact Ms. }
  assert (Win : forall r, In r df ->
                  In (Week r) (map fst (groupby Z.compare Week df)))
    by (intros r Hr; apply Wk, in_map; exact Hr).
  assert (Min : forall r, In r df ->
                  In (Month r)
                    (map fst (groupby String_as_OT.compare Month df)))
    by (intros r Hr; apply Mk, in_map; exact Hr).
  split; [exact Ws |].
  split; [exact Wn |].
  split; [exact Mn |].
  split; [intros r Hr; split; auto |].
  split.
  { intros w Hw; apply Wk, in_map_iff in Hw; destruct Hw as (r & <- & Hr).
    intros E.
    assert (Hin : In r (filter (fun r0 => Z.eqb (Week r0) (Week r)) df))
      by (apply filter_In; split; [exact Hr | apply Z.eqb_refl]).
    rewrite E in Hin; exact Hin. }
  split.
  { intros m Hm; apply Mk, in_map_iff in Hm; destruct Hm as (r & <- & Hr).
    intros E.
    assert (Hin : In r (filter (fun r0 => String.eqb (Month r0) (Month r)) df))
      by (apply filter_In; split; [exact Hr | apply String.eqb_refl]).
    rewrite E in Hin; exact Hin. }
  split.
  { apply (groups_partition Z.eqb Week); [apply Z.eqb_eq | exact Wn | exact Win]. }
  split.
  { apply (groups_partition String.eqb Month);
      [apply String.eqb_eq | exact Mn | exact Min]. }
  split.
  { intros w h e Hin; apply summary_In in Hin.
    destruct Hin as (rs & Hin & Hh & He).
    rewrite <- (Wg w rs Hin); apply summary_entry; assumption. }
  split.
  { intros m h e Hin; apply summary_In in Hin.
    destruct Hin as (rs & Hin & Hh & He).
    rewrite <- (Mg m rs Hin); apply summary_entry; assumption. }
  split; vm_compute; reflexivity.
Qed.

(* ------------------------------------------------------------------ *)
(** ** The weekly summary *)

(** The derived columns of a row are never written again: in every table of
    a session the week and the month of a row are those of its date. *)
Lemma rerun_In (df : DataFrame) (ed : edited_frame) (r' : row) :
  In r' (rerun df ed) ->
  exists r, In r df /\ Date r' = Date r /\ Week r' = Week r
            /\ Month r' = Month r.
Proof.
  intros Hin; apply In_nth_error in Hin; destruct Hin as (i & Hi).
  rewrite rerun_nth in Hi.
  destruct (nth_error df i) as [r |] eqn:E; [| discriminate].
  injection Hi as <-; exists r; split; [eapply nth_error_In; eauto |].
  destruct (loc i ed); repeat split.
Qed.

Lemma session_derived (start end_ : date) (name : string)
  (eds : list edited_frame) (r : row) :
  In r (session start end_ name eds) ->
  Week r = isoweek (Date r) /\ Month r = month_name (Date r).
Proof.
  unfold session; revert r; induction eds as [| ed eds IH] using rev_ind;
    intros r Hin.
  - simpl in Hin; unfold init_timesheet in Hin; cbv zeta in Hin.
    apply in_map_iff in Hin; destruct Hin as (d & <- & _); split; reflexivity.
  - rewrite fold_left_app in Hin; simpl in Hin.
    apply rerun_In in Hin; destruct Hin as (r0 & Hin & -> & -> & ->).
    apply IH; exact Hin.
Qed.

Lemma weekly_summary_group (df : DataFrame) (r1 r2 : row) :
  In r1 df -> In r2 df -> Week r1 = Week r2 ->
  NoDup (map fst (weekly_summary df))
  /\ exists h e,
       In (Week r1, (h, e)) (weekly_summary df)
       /\ (forall h' e', In (Week r2, (h', e')) (weekly_summary df) ->
             h' = h /\ e' = e)
       /\ let rs := filter (fun r => Z.eqb (Week r) (Week r1)) df in
          In r1 rs /\ In r2 rs
          /\ h = round2 (sum (map Hours_Worked rs))
          /\ e = round2 (sum (map Daily_Total rs)).
Proof.
  intros H1 H2 Hw.
  destruct (weekly_groups df) as (Hs & Hk & Hg).
  assert (Hnd : NoDup (map fst (weekly_summary df))).
  { unfold weekly_summary; rewrite summary_keys.
    apply strictly_sorted_NoDup; exact Hs. }
  split; [exact Hnd |].
  assert (Hin : In (Week r1) (map fst (groupby Z.compare Week df))).
  { apply Hk, in_map; exact H1. }
  apply in_map_iff in Hin; destruct Hin as ([w rs] & Hw1 & Hin).
  simpl in Hw1; subst w.
  pose proof (Hg _ _ Hin) as Hrs.
  exists (round2 (sum (map Hours_Worked rs))),
         (round2 (sum (map Daily_Total rs))).
  split; [| split].
  - unfold weekly_summary, summary, round_2, agg_sum; rewrite map_map.
    apply in_map_iff; exists (Week r1, rs); split; [reflexivity | exact Hin].
  - intros h' e' Hin'; rewrite <- Hw in Hin'.
    apply summary_In in Hin'; destruct Hin' as (rs' & Hin' & -> & ->).
    apply Hg in Hin'; rewrite Hin', <- Hrs; split; reflexivity.
  - cbv zeta; rewrite <- Hrs; repeat split; try reflexivity;
      rewrite Hrs; apply filter_In; split; auto.
    + apply Z.eqb_refl.
    + rewrite Hw; apply Z.eqb_refl.
Qed.

(** C10.  The weekly summary has one group per week number, whatever the
    year.  In any table of a session, two rows whose dates lie in different
    years and have the same ISO week number are summed in the same, single
    group, which holds every row of the table with that week number. *)
Theorem weekly_summary_merges_years (start end_ : date) (name : string)
  (eds : list edited_frame) (r1 r2 : row) :
  let df := session start end_ name eds in
  In r1 df -> In r2 df ->
  year (ord2ymd (Date r1)) <> year (ord2ymd (Date r2)) ->
  isoweek (Date r1) = isoweek (Date r2) ->
  NoDup (map fst (weekly_summary df))
  /\ exists h e,
       In (isoweek (Date r1), (h, e)) (weekly_summary df)
       /\ (forall h' e',
             In (isoweek (Date r2), (h', e')) (weekly_summary df) ->
             h' = h /\ e' = e)
       /\ let rs := filter (fun r => Z.eqb (Week r) (isoweek (Date r1))) df in
          In r1 rs /\ In r2 rs
          /\ h = round2 (sum (map Hours_Worked rs))
          /\ e = round2 (sum (map Daily_Total rs)).
Proof.
  intros df H1 H2 _ Hw.
  destruct (session_derived _ _ _ _ _ H1) as (W1 & _).
  destruct (session_derived _ _ _ _ _ H2) as (W2 & _).
  rewrite <- W1, <- W2 in *.
  apply weekly_summary_group; assumption.
Qed.

Lemma init_row_In (start end_ : date) (name : string) (d : Z) :
  (toordinal start <= d <= toordinal end_)%Z ->
  In (init_row name d) (init_timesheet start end_ name).
Proof.
  intros H; unfold init_timesheet; cbv zeta.
  apply in_map, date_range_In; exact H.
Qed.

Lemma weekly_summary_merges_years_witness :
  let df := session (mkdate 2024 12 30) (mkdate 2026 1 4) "Alex" [] in
  let r1 := init_row "Alex" (toordinal (mkdate 2024 12 30)) in
  let r2 := init_row "Alex" (toordinal (mkdate 2026 1 1)) in
  (year (ord2ymd (Date r1)) = 2024 /\ year (ord2ymd (Date r2)) = 2026
   /\ isoweek (Date r1) = 1 /\ isoweek (Date r2) = 1)%Z
  /\ NoDup (map fst (weekly_summary df))
  /\ exists h e,
       In (isoweek (Date r1), (h, e)) (weekly_summary df)
       /\ (forall h' e',
             In (isoweek (Date r2), (h', e')) (weekly_summary df) ->
             h' = h /\ e' = e)
       /\ let rs := filter (fun r => Z.eqb (Week r) (isoweek (Date r1))) df in
          In r1 rs /\ In r2 rs
          /\ h = round2 (sum (map Hours_Worked rs))
          /\ e = round2 (sum (map Daily_Total rs)).
Proof.
  cbv zeta; split.
  - repeat split; vm_compute; reflexivity.
  - apply (weekly_summary_merges_years (mkdate 2024 12 30) (mkdate 2026 1 4)
             "Alex" []
             (init_row "Alex" (toordinal (mkdate 2024 12 30)))
             (init_row "Alex" (toordinal (mkdate 2026 1 1)))).
    + apply init_row_In; vm_compute; intuition discriminate.
    + apply init_row_In; vm_compute; intuition discriminate.
    + vm_compute; discriminate.
    + vm_compute; reflexivity.
Defined.

(* ------------------------------------------------------------------ *)
(** ** The empty range *)

Lemma update_nil (ed : edited_frame) : update [] ed = [].
Proof. reflexivity. Qed.

(** C5.  For valid dates with [start > end] the table has no row, and stays
    empty whatever the editor returns; its weekly and monthly summaries have
    no group, and its metrics are 0. *)
Theorem init_timesheet_empty_range (start end_ : date) (name : string) :
  valid_date start -> valid_date end_ -> date_gt start end_ ->
  let df := init_timesheet start end_ name in
  df = []
  /\ (forall ed, rerun df ed = [])
  /\ weekly_summary df = [] /\ monthly_summary df = []
  /\ total_hours df = 0 /\ total_earnings df = 0
  /\ avg_hourly_rate df = Some 0 /\ days_worked df = O.
Proof.
  intros Hs He Hgt df.
  pose proof (CalendarFacts.toordinal_gt start end_ Hs He Hgt) as Hord.
  assert (Hdf : df = []).
  { unfold df, init_timesheet; cbv zeta.
    rewrite date_range_empty by exact Hord; reflexivity. }
  rewrite Hdf; repeat split.
Qed.

Lemma init_timesheet_empty_range_witness :
  let df := init_timesheet (mkdate 2025 1 2) (mkdate 2025 1 1) "Alex" in
  df = []
  /\ (forall ed, rerun df ed = [])
  /\ weekly_summary df = [] /\ monthly_summary df = []
  /\ total_hours df = 0 /\ total_earnings df = 0
  /\ avg_hourly_rate df = Some 0 /\ days_worked df = O.
Proof.
  apply (init_timesheet_empty_range (mkdate 2025 1 2) (mkdate 2025 1 1) "Alex");
    concrete_date.
Defined.

(* ------------------------------------------------------------------ *)
(** ** Merging the edited grid *)

(** C6, as stated, fails: the program keeps no prior value.  In a table
    holding 8, 6 and 0 hours, the editor returns 25 hours (above the bound of
    24) for the first day and no number for the second: after the merge and
    the recomputation the table holds 25 and a missing value, and the daily
    totals follow them. *)
Lemma bad_cell_counterexample :
  let note := Some EmptyString in
  let df := rerun (init_timesheet (mkdate 2025 1 1) (mkdate 2025 1 3) "Alex")
              [(0%nat, mkedit (Some 8) (Some 20) note);
               (1%nat, mkedit (Some 6) (Some 25) note);
               (2%nat, mkedit (Some 0) (Some 0) note)] in
  let ed := [(0%nat, mkedit (Some 25) (Some 20) note);
             (1%nat, mkedit None (Some 25) note);
             (2%nat, mkedit (Some 0) (Some 0) note)] in
  map Hours_Worked df = [Some 8; Some 6; Some 0]
  /\ map Daily_Total df = [Some 160; Some 150; Some 0]
  /\ map Hours_Worked (rerun df ed) = [Some 25; None; Some 0]
  /\ map Daily_Total (rerun df ed) = [Some 500; None; Some 0]
  /\ map Hours_Worked (rerun df ed) <> map Hours_Worked df.
Proof.
  cbv zeta; repeat split; try (vm_compute; reflexivity).
  vm_compute; discriminate.
Qed.

(** C6, amended.  The program checks no value.  The merge followed by the
    recomputation always completes and keeps the rows of the table; the row
    of label [i] gets the hours, the rate and the note that the editor
    returns for [i], whatever they are (missing values when the editor has
    no row [i]), its daily total is the product of these hours and rate, and
    its other columns are unchanged.  A row depends on what the editor
    returns for its own label only: a value returned for another label does
    not change it. *)
Theorem rerun_row_by_row (df : DataFrame) (ed ed' : edited_frame) :
  List.length (rerun df ed) = List.length df
  /\ (forall i r, nth_error df i = Some r ->
        exists r', nth_error (rerun df ed) i = Some r'
          /\ Hours_Worked r'
             = match loc i ed with Some e => e_hours e | None => None end
          /\ Hourly_Rate r'
             = match loc i ed with Some e => e_rate e | None => None end
          /\ Tasks_Completed r'
             = match loc i ed with Some e => e_tasks e | None => None end
          /\ Daily_Total r' = fmul (Hours_Worked r') (Hourly_Rate r')
          /\ Date r' = Date r /\ Day r' = Day r /\ Week r' = Week r
          /\ Month r' = Month r /\ Employee_Name r' = Employee_Name r)
  /\ (forall i, loc i ed = loc i ed' ->
        nth_error (rerun df ed) i = nth_error (rerun df ed') i).
Proof.
  split; [| split].
  - unfold rerun, update.
    rewrite calculate_totals_length; apply update_from_length.
  - intros i r Hi; rewrite rerun_nth, Hi; simpl.
    eexists; split; [reflexivity |].
    destruct (loc i ed); repeat split.
  - intros i Hi; rewrite !rerun_nth, Hi; reflexivity.
Qed.

(* ------------------------------------------------------------------ *)
(** ** The metrics *)

Lemma days_worked_spec (df : DataFrame) : days_worked df = spec_days_worked df.
Proof.
  unfold days_worked; induction df as [| r df IH]; simpl.
  - reflexivity.
  - destruct (Hours_Worked r) as [q |]; simpl; [| exact IH].
    destruct (Qle_bool q 0); simpl; congruence.
Qed.

Lemma positive_rates_filter (df : DataFrame) :
  map Hourly_Rate (filter (fun r => gt0 (Hourly_Rate r)) df)
  = map Some (positive_rates df).
Proof.
  induction df as [| r df IH]; simpl.
  - reflexivity.
  - destruct (Hourly_Rate r) as [q |] eqn:E; simpl; [| exact IH].
    destruct (Qle_bool q 0); simpl; [exact IH |].
    rewrite E, IH; reflexivity.
Qed.

Lemma count_Some (l : list Q) : count (map Some l) = List.length l.
Proof. induction l; simpl; congruence. Qed.

Lemma sum_Some (l : list Q) : sum (map Some l) == Qsum l.
Proof.
  induction l as [| q l IH]; simpl.
  - reflexivity.
  - rewrite IH; reflexivity.
Qed.

Lemma avg_hourly_rate_spec (df : DataFrame) :
  cell_eq (avg_hourly_rate df) (Some (spec_average_rate df)).
Proof.
  unfold avg_hourly_rate, spec_average_rate; cbv zeta.
  assert (Hlen : List.length (filter (fun r => gt0 (Hourly_Rate r)) df)
                 = List.length (positive_rates df)).
  { rewrite <- (length_map Hourly_Rate), positive_rates_filter.
    apply length_map. }
  rewrite Hlen, positive_rates_filter.
  destruct (positive_rates df) as [| q l] eqn:E.
  - simpl; reflexivity.
  - unfold mean; rewrite count_Some.
    cbn [List.length Nat.ltb Nat.leb cell_eq].
    rewrite sum_Some; reflexivity.
Qed.

(** C7.  The four metrics are the ones the specification words: the total
    hours and the total earnings are the sums of the two columns over all
    rows, the average rate is the mean of the rates above 0, and 0 when there
    is none, and the days worked count the rows with hours above 0.  For
    2025-01-01 to 2025-01-03 with 8 hours at 20, 6 hours at 25 and 0 hours at
    0 they are 14, 310, 22.5 and 2, and the weekly summary has the single
    group of week 1 with 14 hours and earnings of 310. *)
Theorem metrics_spec :
  (forall df,
     total_hours df == spec_total Hours_Worked df
     /\ total_earnings df == spec_total Daily_Total df
     /\ cell_eq (avg_hourly_rate df) (Some (spec_average_rate df))
     /\ days_worked df = spec_days_worked df)
  /\ (let note := Some EmptyString in
      let df := rerun (init_timesheet (mkdate 2025 1 1) (mkdate 2025 1 3) "Alex")
                  [(0%nat, mkedit (Some 8) (Some 20) note);
                   (1%nat, mkedit (Some 6) (Some 25) note);
                   (2%nat, mkedit (Some 0) (Some 0) note)] in
      total_hours df == 14
      /\ total_earnings df == 310
      /\ cell_eq (avg_hourly_rate df) (Some (45 # 2))
      /\ days_worked df = 2%nat
      /\ exists h e, weekly_summary df = [(1%Z, (h, e))]
                     /\ h == 14 /\ e == 310).
Proof.
  split.
  - intros df; repeat split.
    + apply sum_spec_total.
    + apply sum_spec_total.
    + apply avg_hourly_rate_spec.
    + apply days_worked_spec.
  - cbv zeta; repeat split; try (vm_compute; reflexivity).
    exists (1400 # 100), (31000 # 100); repeat split; vm_compute; reflexivity.
Qed.

(* ------------------------------------------------------------------ *)
(** ** Reading back the CSV export *)

Module CSVFacts.
Import CSV.

Lemma unquoted_plain (f : text) :
  existsb special f = false -> no_CR f -> Forall plain f.
Proof.
  unfold no_CR; induction f as [| c f IH]; simpl; intros Hs Hcr.
  - constructor.
  - apply orb_false_iff in Hs; destruct Hs as (Hc & Hf).
    constructor; [| apply IH; tauto].
    unfold special in Hc; simpl in Hc; rewrite orb_false_r in Hc.
    apply orb_false_iff in Hc; destruct Hc as (Hc & Hl).
    apply orb_false_iff in Hc; destruct Hc as (Hc & Hq).
    repeat split; try assumption.
    destruct (Ascii.eqb_spec c CR); [subst; tauto | reflexivity].
Qed.

(** The reader inside a field without quotes. *)
Lemma parse_InField (f cur : text) (fs : list text) (rs : list (list text))
  (rest : text) :
  Forall plain f ->
  parse InField cur fs rs (f ++ rest) = parse InField (rev f ++ cur) fs rs rest.
Proof.
  intros Hf; revert cur; induction Hf as [| c f (Hc & _ & Hl & Hr) _ IH];
    intros cur; simpl.
  - reflexivity.
  - unfold is_eol; rewrite Hc, Hl, Hr; simpl.
    rewrite IH, <- app_assoc; reflexivity.
Qed.

(** The reader inside a quoted field, up to the closing quote. *)
Lemma parse_InQuoted (f cur : text) (fs : list text) (rs : list (list text))
  (rest : text) :
  parse InQuoted cur fs rs (escape f ++ dquote :: rest)
  = parse QuoteInQuoted (rev f ++ cur) fs rs rest.
Proof.
  revert cur; induction f as [| c f IH]; intros cur; simpl.
  - reflexivity.
  - destruct (Ascii.eqb_spec c dquote) as [-> | Hne]; simpl.
    + rewrite IH, <- app_assoc; reflexivity.
    + apply Ascii.eqb_neq in Hne; rewrite Hne.
      rewrite IH, <- app_assoc; reflexivity.
Qed.

(** A written field followed by a comma is read back as that field. *)
Lemma parse_field_comma (st : pstate) (f : text) (fs : list text)
  (rs : list (list text)) (rest : text) :
  starts st fs -> no_CR f ->
  parse st [] fs rs (write_field f ++ comma :: rest)
  = parse StartField [] (f :: fs) rs rest.
Proof.
  intros Hst Hcr; unfold write_field.
  destruct (existsb special f) eqn:Hs.
  - replace ((dquote :: escape f ++ [dquote]) ++ comma :: rest)
      with (dquote :: escape f ++ dquote :: comma :: rest)
      by (simpl; rewrite <- app_assoc; reflexivity).
    transitivity (parse InQuoted [] fs rs (escape f ++ dquote :: comma :: rest)).
    { destruct Hst as [-> | (-> & ->)]; reflexivity. }
    rewrite parse_InQuoted; simpl.
    rewrite app_nil_r, rev_involutive; reflexivity.
  - pose proof (unquoted_plain f Hs Hcr) as Hf.
    destruct Hf as [| c f (Hc & Hq & Hl & Hr) Hf].
    + destruct Hst as [-> | (-> & ->)]; reflexivity.
    + transitivity (parse InField [c] fs rs (f ++ comma :: rest)).
      { destruct Hst as [-> | (-> & ->)]; simpl;
          unfold is_eol; rewrite Hc, Hq, Hl, Hr; reflexivity. }
      rewrite parse_InField by exact Hf; simpl.
      replace (rev f ++ [c]) with (rev (c :: f)) by reflexivity.
      rewrite rev_involutive; reflexivity.
Qed.

(** A written field followed by the line terminator ends the record. *)
Lemma parse_field_LF (f : text) (fs : list text) (rs : list (list text))
  (rest : text) :
  no_CR f ->
  parse StartField [] fs rs (write_field f ++ LF :: rest)
  = parse StartRecord [] [] (rev (f :: fs) :: rs) rest.
Proof.
  intros Hcr; unfold write_field.
  destruct (existsb special f) eqn:Hs.
  - replace ((dquote :: escape f ++ [dquote]) ++ LF :: rest)
      with (dquote :: escape f ++ dquote :: LF :: rest)
      by (simpl; rewrite <- app_assoc; reflexivity).
    transitivity (parse InQuoted [] fs rs (escape f ++ dquote :: LF :: rest));
      [reflexivity |].
    rewrite parse_InQuoted; simpl.
    rewrite app_nil_r, rev_involutive; reflexivity.
  - pose proof (unquoted_plain f Hs Hcr) as Hf.
    destruct Hf as [| c f (Hc & Hq & Hl & Hr) Hf].
    + reflexivity.
    + transitivity (parse InField [c] fs rs (f ++ LF :: rest)).
      { simpl; unfold is_eol; rewrite Hc, Hq, Hl, Hr; reflexivity. }
      rewrite parse_InField by exact Hf; simpl.
      replace (rev f ++ [c]) with (rev (c :: f)) by reflexivity.
      rewrite rev_involutive; reflexivity.
Qed.

(** The fields of a record after its first one. *)
Lemma parse_fields (fields acc : list text) (rs : list (list text))
  (rest : text) :
  fields <> [] -> Forall no_CR fields ->
  parse StartField [] acc rs (write_fields fields ++ LF :: rest)
  = parse StartRecord [] [] (rev (rev fields ++ acc) :: rs) rest.
Proof.
  intros Hne Hcr; revert acc; induction Hcr as [| f fields Hf Hcr IH];
    intros acc; [congruence |].
  destruct fields as [| g fields].
  - simpl; apply parse_field_LF; exact Hf.
  - change (write_fields (f :: g :: fields))
      with (write_field f ++ comma :: write_fields (g :: fields)).
    rewrite <- app_assoc.
    change ((comma :: write_fields (g :: fields)) ++ LF :: rest)
      with (comma :: (write_fields (g :: fields) ++ LF :: rest)).
    rewrite parse_field_comma by (auto; left; reflexivity).
    rewrite IH by discriminate.
    change (rev (f :: g :: fields)) with (rev (g :: fields) ++ [f]).
    rewrite <- app_assoc; reflexivity.
Qed.

(** A written record of two fields or more is read back as it was. *)
Lemma parse_record (f g : text) (fields : list text) (rs : list (list text))
  (rest : text) :
  Forall no_CR (f :: g :: fields) ->
  parse StartRecord [] [] rs (write_row (f :: g :: fields) ++ rest)
  = parse StartRecord [] [] ((f :: g :: fields) :: rs) rest.
Proof.
  intros Hcr; inversion Hcr as [| ? ? Hf Hcr']; subst.
  unfold write_row, lineterminator.
  change (write_fields (f :: g :: fields))
    with (write_field f ++ comma :: write_fields (g :: fields)).
  rewrite <- !app_assoc.
  change ((comma :: write_fields (g :: fields)) ++ [LF] ++ rest)
    with (comma :: (write_fields (g :: fields) ++ LF :: rest)).
  rewrite parse_field_comma by (auto; right; split; reflexivity).
  rewrite parse_fields by (auto; discriminate).
  rewrite rev_app_distr, rev_involutive; reflexivity.
Qed.

Lemma parse_records (records rs : list (list text)) :
  Forall wide records -> Forall (Forall no_CR) records ->
  parse StartRecord [] [] rs (List.concat (map write_row records))
  = rev rs ++ records.
Proof.
  intros Hw; revert rs; induction Hw as [| r records (f & g & fs & ->) _ IH];
    intros rs Hcr; simpl.
  - rewrite app_nil_r; reflexivity.
  - inversion Hcr as [| ? ? Hr Hcr']; subst.
    rewrite parse_record by exact Hr.
    rewrite IH by exact Hcr'; simpl.
    rewrite <- app_assoc; reflexivity.
Qed.

End CSVFacts.

Lemma no_CR_check (f : text) : existsb (Ascii.eqb CR) f = false -> no_CR f.
Proof.
  unfold no_CR; induction f as [| c f IH]; cbn [existsb In]; intros H;
    [tauto |].
  apply orb_false_iff in H; destruct H as (Hc & Hf).
  intros [-> | Hin]; [| exact (IH Hf Hin)].
  rewrite Ascii.eqb_refl in Hc; discriminate.
Qed.

Lemma columns_no_CR : Forall no_CR columns.
Proof. repeat constructor; apply no_CR_check; reflexivity. Qed.

Lemma frame_no_CR_check (float_repr : Q -> text) (df : DataFrame) :
  forallb (fun r => forallb (fun f => negb (existsb (Ascii.eqb CR) f))
                      (row_fields float_repr r)) df = true ->
  forall r f, In r df -> In f (row_fields float_repr r) -> no_CR f.
Proof.
  intros H r f Hr Hf.
  rewrite forallb_forall in H; specialize (H r Hr).
  rewrite forallb_forall in H; specialize (H f Hf).
  apply no_CR_check, negb_true_iff; exact H.
Qed.

Lemma chars_inj (s1 s2 : string) : chars s1 = chars s2 -> s1 = s2.
Proof.
  unfold chars; intros H.
  rewrite <- (string_of_list_ascii_of_string s1),
    <- (string_of_list_ascii_of_string s2), H; reflexivity.
Qed.

(** C8, as stated, fails: a missing note and an empty note are written the
    same way, so no reader can give back both.  A day whose note the editor
    returned as missing exports to the same text as the day with the empty
    note, and the note reads back as the empty field. *)
Lemma csv_read_back_counterexample :
  let df := init_timesheet (mkdate 2025 1 1) (mkdate 2025 1 1) "Alex" in
  let kept := rerun df [(0%nat, mkedit (Some 0) (Some 0) (Some EmptyString))] in
  let cleared := rerun df [(0%nat, mkedit (Some 0) (Some 0) None)] in
  map Tasks_Completed kept = [Some EmptyString]
  /\ map Tasks_Completed cleared = [None]
  /\ to_csv decimal_repr kept = to_csv decimal_repr cleared
  /\ read_csv (to_csv decimal_repr cleared)
     = [columns;
        [chars "2025-01-01"; chars "Wednesday"; chars "0.0"; chars "0.0";
         chars "0.0"; []; chars "1"; chars "January"; chars "Alex"]].
Proof. cbv zeta; repeat split; vm_compute; reflexivity. Qed.

(* ------------------------------------------------------------------ *)
(** * Further properties *)

(** ** The calendar, day by day *)

Module CalendarSteps.
Import Calendar CalendarFacts.
Local Open Scope Z_scope.

Lemma toordinal_tomorrow (d : date) :
  valid_date d -> toordinal (tomorrow d) = toordinal d + 1.
Proof.
  destruct d as [y m dd]; unfold valid_date, tomorrow, toordinal, ymd2ord.
  cbn [year month day]; intros (Hy & Hm & Hd).
  destruct (Z.ltb_spec dd (days_in_month y m)) as [Hlt | Hge];
    cbn [year month day]; [lia |].
  pose proof (days_before_month_next y m Hm) as Hn.
  destruct (Z.ltb_spec m 12) as [Hm12 | Hm12]; cbn [year month day].
  - lia.
  - assert (m = 12) by lia; subst m.
    rewrite days_before_year_succ.
    pose proof (days_before_month_13 y) as H13.
    replace (12 + 1) with 13 in Hn by lia.
    assert (days_before_month (y + 1) 1 = 0) by reflexivity.
    lia.
Qed.

Lemma days_in_month_bounds (y m : Z) :
  1 <= m <= 12 -> 28 <= days_in_month y m <= 31.
Proof.
  intros H; each_month H; unfold days_in_month, DAYS_IN_MONTH;
    destruct (is_leap y); cbn; lia.
Qed.

Lemma valid_tomorrow (d : date) :
  valid_date d -> year d < 9999 \/ month d < 12 \/ day d < 31 ->
  valid_date (tomorrow d).
Proof.
  destruct d as [y m dd]; unfold valid_date, tomorrow.
  cbn [year month day]; intros (Hy & Hm & Hd) Hlast.
  pose proof (days_in_month_bounds y m Hm) as Hb.
  destruct (Z.ltb_spec dd (days_in_month y m)) as [Hlt | Hge];
    cbn [year month day]; [lia |].
  destruct (Z.ltb_spec m 12) as [Hm12 | Hm12]; cbn [year month day].
  - pose proof (days_in_month_bounds y (m + 1)); lia.
  - assert (m = 12) by lia; subst m.
    assert (days_in_month y 12 = 31) by reflexivity.
    assert (days_in_month (y + 1) 1 = 31) by reflexivity.
    lia.
Qed.

(** No valid date comes after the last day of year 9999. *)
Lemma toordinal_max (d : date) :
  valid_date d -> toordinal d <= toordinal (mkdate 9999 12 31).
Proof.
  intros Hd; apply toordinal_le; [exact Hd | concrete_date |].
  destruct Hd as (Hy & Hm & Hdd).
  pose proof (days_in_month_bounds (year d) (month d) Hm) as Hb.
  unfold date_le, date_compare; cbn [year month day].
  destruct (Z.compare_spec (year d) 9999); try discriminate; try lia.
  destruct (Z.compare_spec (month d) 12); try discriminate; try lia.
  destruct (Z.compare_spec (day d) 31); try discriminate; lia.
Qed.

(** A date before another valid date is not the last date. *)
Lemma not_last (d end_ : date) :
  valid_date d -> valid_date end_ -> toordinal d < toordinal end_ ->
  year d < 9999 \/ month d < 12 \/ day d < 31.
Proof.
  intros Hd He Hlt.
  pose proof (toordinal_max end_ He) as Hmax.
  destruct Hd as (Hy & Hm & Hdd).
  pose proof (days_in_month_bounds (year d) (month d) Hm) as Hb.
  destruct (Z.eq_dec (year d) 9999) as [Ey |]; [| lia].
  destruct (Z.eq_dec (month d) 12) as [Em |]; [| lia].
  destruct (Z.eq_dec (day d) 31) as [Ed |]; [| lia].
  exfalso.
  assert (E : d = mkdate 9999 12 31) by (destruct d; simpl in *; congruence).
  subst d; lia.
Qed.

(** Every day number from one valid date to another is the day number of a
    valid date. *)
Lemma day_number_valid (start end_ : date) (n : Z) :
  valid_date start -> valid_date end_ ->
  toordinal start <= n <= toordinal end_ ->
  valid_date (ord2ymd n) /\ toordinal (ord2ymd n) = n.
Proof.
  intros Hs He Hn.
  assert (H : forall k, toordinal start + Z.of_nat k <= toordinal end_ ->
            exists d, valid_date d
                      /\ toordinal d = toordinal start + Z.of_nat k).
  { induction k as [| k IH]; intros Hk.
    - exists start; split; [exact Hs | lia].
    - destruct IH as (d & Hd & Ed); [lia |].
      exists (tomorrow d); split.
      + apply valid_tomorrow; [exact Hd |].
        apply (not_last d end_ Hd He); lia.
      + rewrite toordinal_tomorrow by exact Hd; lia. }
  destruct (H (Z.to_nat (n - toordinal start))) as (d & Hd & Ed); [lia |].
  replace (toordinal start + Z.of_nat (Z.to_nat (n - toordinal start)))
    with n in Ed by lia.
  rewrite <- Ed, ord2ymd_toordinal by exact Hd; split; [exact Hd | reflexivity].
Qed.

(** The day after: the next day number is the day number of the next date. *)
Lemma ord2ymd_succ (start end_ : date) (n : Z) :
  valid_date start -> valid_date end_ ->
  toordinal start <= n -> n + 1 <= toordinal end_ ->
  ord2ymd (n + 1) = tomorrow (ord2ymd n).
Proof.
  intros Hs He Hlo Hhi.
  destruct (day_number_valid start end_ n Hs He) as (Hv & En); [lia |].
  assert (Hlast : year (ord2ymd n) < 9999 \/ month (ord2ymd n) < 12
                  \/ day (ord2ymd n) < 31)
    by (apply (not_last _ end_ Hv He); lia).
  pose proof (valid_tomorrow _ Hv Hlast) as Hvt.
  pose proof (toordinal_tomorrow _ Hv) as Et.
  rewrite <- (ord2ymd_toordinal (tomorrow (ord2ymd n)) Hvt), Et, En.
  reflexivity.
Qed.

(** The Monday of ISO week 1 lies within three days of 1 January, and the
    Mondays of two years are whole weeks apart. *)
Lemma isoweek1monday_near (y : Z) :
  days_before_year y - 2 <= isoweek1monday y <= days_before_year y + 4
  /\ (isoweek1monday y + 6) mod 7 = 0.
Proof.
  unfold isoweek1monday, ymd2ord; cbv zeta.
  change (days_before_month y 1) with 0.
  generalize (days_before_year y); intros F.
  destruct (Z.ltb_spec 3 ((F + 0 + 1 + 6) mod 7));
    Z.div_mod_to_equations; lia.
Qed.

(** The ISO week number of a day lies between 1 and 53. *)
Lemma isoweek_bounds (n : Z) :
  valid_date (ord2ymd n) -> toordinal (ord2ymd n) = n ->
  1 <= isoweek n <= 53.
Proof.
  intros Hv En.
  pose proof (toordinal_in_year _ Hv) as Hin; rewrite En in Hin.
  unfold isoweek; cbv zeta.
  set (y := year (ord2ymd n)) in *.
  pose proof (days_before_year_succ y) as Sy.
  pose proof (days_before_year_succ (y - 1)) as Sp.
  replace (y - 1 + 1) with y in Sp by lia.
  destruct (isoweek1monday_near (y - 1)) as (HA & MA).
  destruct (isoweek1monday_near y) as (HB & MB).
  destruct (isoweek1monday_near (y + 1)) as (HC & MC).
  set (wA := isoweek1monday (y - 1)) in *.
  set (wB := isoweek1monday y) in *.
  set (wC := isoweek1monday (y + 1)) in *.
  set (A := days_before_year (y - 1)) in *.
  set (B := days_before_year y) in *.
  set (C := days_before_year (y + 1)) in *.
  assert (HBA : 365 <= B - A <= 366) by (destruct (is_leap (y - 1)); lia).
  assert (HCB : 365 <= C - B <= 366) by (destruct (is_leap y); lia).
  clearbody wA wB wC A B C; clear Sy Sp.
  destruct (Z.ltb_spec ((n - wB) / 7) 0) as [Hneg | Hpos].
  - Z.div_mod_to_equations; lia.
  - destruct (Z.leb_spec 52 ((n - wB) / 7)), (Z.leb_spec wC n); cbn [andb];
      try lia; Z.div_mod_to_equations; lia.
Qed.

(** The week number changes on Mondays only: a day that is not a Monday has
    the week number of the day before. *)
Lemma isoweek_succ (n : Z) :
  valid_date (ord2ymd n) -> toordinal (ord2ymd n) = n ->
  valid_date (ord2ymd (n + 1)) -> toordinal (ord2ymd (n + 1)) = n + 1 ->
  weekday (n + 1) <> 0 ->
  isoweek (n + 1) = isoweek n.
Proof.
  intros Hv En Hv' En' Hwd.
  pose proof (toordinal_in_year _ Hv) as Hin; rewrite En in Hin.
  pose proof (toordinal_in_year _ Hv') as Hin'; rewrite En' in Hin'.
  unfold isoweek; cbv zeta.
  set (y := year (ord2ymd n)) in *.
  set (y' := year (ord2ymd (n + 1))) in *.
  clearbody y y'.
  pose proof (days_before_year_succ y) as Sy.
  pose proof (days_before_year_succ (y + 1)) as Sy1.
  pose proof (days_before_year_succ (y - 1)) as Sp.
  replace (y - 1 + 1) with y in Sp by lia.
  assert (Hy' : y' = y \/ (y' = y + 1 /\ n = days_before_year (y + 1))).
  { destruct (Z.lt_trichotomy y' y) as [Hlt | [Heq | Hgt]].
    - pose proof (days_before_year_mono (y' + 1) y); lia.
    - left; exact Heq.
    - right.
      destruct (Z.eq_dec y' (y + 1)) as [-> | Hne]; [split; [reflexivity | lia] |].
      pose proof (days_before_year_mono (y + 1 + 1) y').
      destruct (is_leap (y + 1)); lia. }
  destruct (isoweek1monday_near (y - 1)) as (HA & MA).
  destruct (isoweek1monday_near y) as (HB & MB).
  destruct (isoweek1monday_near (y + 1)) as (HC & MC).
  destruct (isoweek1monday_near (y + 1 + 1)) as (HD & MD).
  unfold weekday in Hwd.
  destruct Hy' as [-> | (-> & Hn)].
  - set (wA := isoweek1monday (y - 1)) in *.
    set (wB := isoweek1monday y) in *.
    set (wC := isoweek1monday (y + 1)) in *.
    clearbody wA wB wC.
    assert (Hw : (n + 1 - wB) / 7 = (n - wB) / 7)
      by (Z.div_mod_to_equations; lia).
    assert (HwA : (n + 1 - wA) / 7 = (n - wA) / 7)
      by (Z.div_mod_to_equations; lia).
    rewrite Hw, HwA.
    destruct (Z.ltb_spec ((n - wB) / 7) 0); [reflexivity |].
    destruct (Z.leb_spec 52 ((n - wB) / 7)); cbn [andb]; [| reflexivity].
    destruct (Z.leb_spec wC (n + 1)), (Z.leb_spec wC n); try reflexivity;
      exfalso; Z.div_mod_to_equations; lia.
  - replace (y + 1 - 1) with y by lia.
    set (wB := isoweek1monday y) in *.
    set (wC := isoweek1monday (y + 1)) in *.
    set (wD := isoweek1monday (y + 1 + 1)) in *.
    set (B := days_before_year y) in *.
    set (C := days_before_year (y + 1)) in *.
    set (D := days_before_year (y + 1 + 1)) in *.
    assert (HCB : 365 <= C - B <= 366) by (destruct (is_leap y); lia).
    assert (HDC : 365 <= D - C <= 366) by (destruct (is_leap (y + 1)); lia).
    clearbody wB wC wD B C D; clear Sy Sy1 Sp HA MA.
    subst n.
    assert (Hw : (C + 1 - wB) / 7 = (C - wB) / 7)
      by (Z.div_mod_to_equations; lia).
    destruct (Z.ltb_spec ((C + 1 - wC) / 7) 0) as [Hneg | Hpos].
    + rewrite Hw.
      destruct (Z.ltb_spec ((C - wB) / 7) 0);
        [exfalso; Z.div_mod_to_equations; lia |].
      destruct (Z.leb_spec 52 ((C - wB) / 7)), (Z.leb_spec wC C); cbn [andb];
        try reflexivity; exfalso; Z.div_mod_to_equations; lia.
    + destruct (Z.leb_spec 52 ((C + 1 - wC) / 7)), (Z.leb_spec wD (C + 1));
        cbn [andb]; try (exfalso; Z.div_mod_to_equations; lia).
      all: destruct (Z.ltb_spec ((C - wB) / 7) 0);
        [exfalso; Z.div_mod_to_equations; lia |].
      all: destruct (Z.leb_spec 52 ((C - wB) / 7)), (Z.leb_spec wC C);
        cbn [andb]; Z.div_mod_to_equations; lia.
Qed.

(** On a Monday the week number goes up by one, or starts again at 1 after
    week 52 or 53. *)
Lemma isoweek_monday (n : Z) :
  valid_date (ord2ymd n) -> toordinal (ord2ymd n) = n ->
  valid_date (ord2ymd (n + 1)) -> toordinal (ord2ymd (n + 1)) = n + 1 ->
  weekday (n + 1) = 0 ->
  isoweek (n + 1) = isoweek n + 1
  \/ (isoweek (n + 1) = 1 /\ 52 <= isoweek n).
Proof.
  intros Hv En Hv' En' Hwd.
  pose proof (toordinal_in_year _ Hv) as Hin; rewrite En in Hin.
  pose proof (toordinal_in_year _ Hv') as Hin'; rewrite En' in Hin'.
  unfold isoweek; cbv zeta.
  set (y := year (ord2ymd n)) in *.
  set (y' := year (ord2ymd (n + 1))) in *.
  clearbody y y'.
  pose proof (days_before_year_succ y) as Sy.
  pose proof (days_before_year_succ (y + 1)) as Sy1.
  pose proof (days_before_year_succ (y - 1)) as Sp.
  replace (y - 1 + 1) with y in Sp by lia.
  assert (Hy' : y' = y \/ (y' = y + 1 /\ n = days_before_year (y + 1))).
  { destruct (Z.lt_trichotomy y' y) as [Hlt | [Heq | Hgt]].
    - pose proof (days_before_year_mono (y' + 1) y); lia.
    - left; exact Heq.
    - right.
      destruct (Z.eq_dec y' (y + 1)) as [-> | Hne]; [split; [reflexivity | lia] |].
      pose proof (days_before_year_mono (y + 1 + 1) y').
      destruct (is_leap (y + 1)); lia. }
  destruct (isoweek1monday_near (y - 1)) as (HA & MA).
  destruct (isoweek1monday_near y) as (HB & MB).
  destruct (isoweek1monday_near (y + 1)) as (HC & MC).
  destruct (isoweek1monday_near (y + 1 + 1)) as (HD & MD).
  unfold weekday in Hwd.
  set (wA := isoweek1monday (y - 1)) in *.
  set (wB := isoweek1monday y) in *.
  set (wC := isoweek1monday (y + 1)) in *.
  set (wD := isoweek1monday (y + 1 + 1)) in *.
  set (A := days_before_year (y - 1)) in *.
  set (B := days_before_year y) in *.
  set (C := days_before_year (y + 1)) in *.
  set (D := days_before_year (y + 1 + 1)) in *.
  assert (HBA : 365 <= B - A <= 366) by (destruct (is_leap (y - 1)); lia).
  assert (HCB : 365 <= C - B <= 366) by (destruct (is_leap y); lia).
  assert (HDC : 365 <= D - C <= 366) by (destruct (is_leap (y + 1)); lia).
  destruct Hy' as [-> | (-> & Hn)].
  - fold wA wB wC.
    clearbody wA wB wC wD A B C D; clear Sy Sy1 Sp.
    assert (Ek : exists k, n + 1 - wB = 7 * k)
      by (exists ((n + 1 - wB) / 7); Z.div_mod_to_equations; lia).
    assert (Ej : exists j, n + 1 - wA = 7 * j)
      by (exists ((n + 1 - wA) / 7); Z.div_mod_to_equations; lia).
    assert (Em : exists m, wC - wB = 7 * m)
      by (exists ((wC - wB) / 7); Z.div_mod_to_equations; lia).
    destruct Ek as (k & Ek), Ej as (j & Ej), Em as (m & Em).
    assert (Q1 : (n + 1 - wB) / 7 = k)
      by (symmetry; apply Z.div_unique with 0; lia).
    assert (Q2 : (n - wB) / 7 = k - 1)
      by (symmetry; apply Z.div_unique with 6; lia).
    assert (Q3 : (n + 1 - wA) / 7 = j)
      by (symmetry; apply Z.div_unique with 0; lia).
    assert (Q4 : (n - wA) / 7 = j - 1)
      by (symmetry; apply Z.div_unique with 6; lia).
    rewrite Q1, Q2, Q3, Q4.
    destruct (Z.ltb_spec k 0), (Z.ltb_spec (k - 1) 0),
      (Z.leb_spec 52 k), (Z.leb_spec wC (n + 1)),
      (Z.leb_spec 52 (k - 1)), (Z.leb_spec wC n);
      cbn [andb]; lia.
  - replace (y + 1 - 1) with y by lia.
    fold wB wC wD.
    clearbody wA wB wC wD A B C D; clear Sy Sy1 Sp.
    subst n.
    assert (Ek : exists k, C + 1 - wC = 7 * k)
      by (exists ((C + 1 - wC) / 7); Z.div_mod_to_equations; lia).
    assert (Ej : exists j, C + 1 - wB = 7 * j)
      by (exists ((C + 1 - wB) / 7); Z.div_mod_to_equations; lia).
    assert (Em : exists m, wD - wC = 7 * m)
      by (exists ((wD - wC) / 7); Z.div_mod_to_equations; lia).
    destruct Ek as (k & Ek), Ej as (j & Ej), Em as (m & Em).
    assert (Q1 : (C + 1 - wC) / 7 = k)
      by (symmetry; apply Z.div_unique with 0; lia).
    assert (Q2 : (C - wB) / 7 = j - 1)
      by (symmetry; apply Z.div_unique with 6; lia).
    assert (Q3 : (C + 1 - wB) / 7 = j)
      by (symmetry; apply Z.div_unique with 0; lia).
    rewrite Q1, Q2, ?Q3.
    destruct (Z.ltb_spec k 0), (Z.ltb_spec (j - 1) 0),
      (Z.leb_spec 52 k), (Z.leb_spec wD (C + 1)),
      (Z.leb_spec 52 (j - 1)), (Z.leb_spec wC C);
      cbn [andb]; lia.
Qed.

End CalendarSteps.

(* ------------------------------------------------------------------ *)
(** ** What a session keeps *)

Lemma update_from_column {A : Type} (col : row -> A) (k : nat)
  (df : DataFrame) (ed : edited_frame) :
  (forall r e, col (merged r e) = col r) ->
  map col (update_from k df ed) = map col df.
Proof.
  intros Hcol; revert k; induction df as [| r df IH]; intros k; simpl.
  - reflexivity.
  - rewrite Hcol, IH; reflexivity.
Qed.

Lemma rerun_column {A : Type} (col : row -> A) (df : DataFrame)
  (ed : edited_frame) :
  (forall r v, col (set_Daily_Total r v) = col r) ->
  (forall r e, col (merged r e) = col r) ->
  map col (rerun df ed) = map col df.
Proof.
  intros Hv He; unfold rerun, update.
  rewrite calculate_totals_column by exact Hv.
  apply update_from_column; exact He.
Qed.

Lemma merged_fixed (r : row) (e : option edit) :
  Date (merged r e) = Date r /\ Day (merged r e) = Day r
  /\ Week (merged r e) = Week r /\ Month (merged r e) = Month r
  /\ Employee_Name (merged r e) = Employee_Name r.
Proof. destruct e; repeat split. Qed.

Lemma session_column {A : Type} (col : row -> A) (start end_ : date)
  (name : string) (eds : list edited_frame) :
  (forall r v, col (set_Daily_Total r v) = col r) ->
  (forall r e, col (merged r e) = col r) ->
  map col (session start end_ name eds)
  = map col (init_timesheet start end_ name).
Proof.
  intros Hv He; unfold session.
  induction eds as [| ed eds IH] using rev_ind; [reflexivity |].
  rewrite fold_left_app; simpl.
  rewrite rerun_column by assumption; exact IH.
Qed.

Lemma session_Date (start end_ : date) (name : string)
  (eds : list edited_frame) :
  map Date (session start end_ name eds)
  = date_range (toordinal start) (toordinal end_).
Proof.
  rewrite <- init_timesheet_Date with (name := name).
  apply session_column; intros; [reflexivity | apply merged_fixed].
Qed.

(** The columns that are set once: in every table of a session they are
    what [init_timesheet] computed from the date of the row. *)
Lemma session_row_columns (start end_ : date) (name : string)
  (eds : list edited_frame) (r : row) :
  In r (session start end_ name eds) ->
  Day r = day_name (Date r) /\ Week r = isoweek (Date r)
  /\ Month r = month_name (Date r) /\ Employee_Name r = name.
Proof.
  intros Hin.
  assert (Hall : map (fun r => (Date r, Day r, Week r, Month r, Employee_Name r))
                   (session start end_ name eds)
                 = map (fun r => (Date r, Day r, Week r, Month r, Employee_Name r))
                     (init_timesheet start end_ name)).
  { apply session_column; [reflexivity |].
    intros r0 e; destruct e; reflexivity. }
  apply (in_map (fun r => (Date r, Day r, Week r, Month r, Employee_Name r)))
    in Hin.
  rewrite Hall in Hin; apply in_map_iff in Hin.
  destruct Hin as (r0 & Heq & Hin0); injection Heq as <- <- <- <- <-.
  unfold init_timesheet in Hin0; cbv zeta in Hin0.
  apply in_map_iff in Hin0; destruct Hin0 as (d & <- & _).
  repeat split.
Qed.

(** X1.  Whatever the editor returns, run after run, the table of a session
    keeps the rows it was built with: as many rows, the same dates in the
    same order, and the weekday, week, month and employee name columns as
    [init_timesheet] set them. *)
Theorem session_keeps_rows (start end_ : date) (name : string)
  (eds : list edited_frame) :
  let fresh := init_timesheet start end_ name in
  let df := session start end_ name eds in
  List.length df = List.length fresh
  /\ map Date df = date_range (toordinal start) (toordinal end_)
  /\ map Day df = map Day fresh
  /\ map Week df = map Week fresh
  /\ map Month df = map Month fresh
  /\ (forall r, In r df ->
        Day r = day_name (Date r) /\ Week r = isoweek (Date r)
        /\ Month r = month_name (Date r) /\ Employee_Name r = name).
Proof.
  cbv zeta.
  split; [| split; [| split; [| split; [| split]]]].
  - rewrite <- (length_map Date), session_Date, <- init_timesheet_Date
      with (name := name).
    apply length_map.
  - apply session_Date.
  - apply session_column; intros; [reflexivity | apply merged_fixed].
  - apply session_column; intros; [reflexivity | apply merged_fixed].
  - apply session_column; intros; [reflexivity | apply merged_fixed].
  - intros r Hin; eapply session_row_columns; exact Hin.
Qed.

Lemma rerun_row_total (df : DataFrame) (ed : edited_frame) (r : row) :
  In r (rerun df ed) -> Daily_Total r = fmul (Hours_Worked r) (Hourly_Rate r).
Proof.
  unfold rerun, calculate_totals; intros Hin.
  apply in_map_iff in Hin; destruct Hin as (r0 & <- & _); reflexivity.
Qed.

Lemma session_row_total (start end_ : date) (name : string)
  (eds : list edited_frame) (r : row) :
  In r (session start end_ name eds) ->
  Daily_Total r = fmul (Hours_Worked r) (Hourly_Rate r).
Proof.
  unfold session; destruct eds as [| ed eds _] using rev_ind; intros Hin.
  - simpl in Hin; unfold init_timesheet in Hin; cbv zeta in Hin.
    apply in_map_iff in Hin; destruct Hin as (d & <- & _); reflexivity.
  - rewrite fold_left_app in Hin; simpl in Hin.
    eapply rerun_row_total; exact Hin.
Qed.

Lemma calculate_totals_fixed (df : DataFrame) :
  (forall r, In r df ->
     Daily_Total r = fmul (Hours_Worked r) (Hourly_Rate r)) ->
  calculate_totals df = df.
Proof.
  intros H; apply nth_error_ext; intros i; rewrite calculate_totals_nth.
  destruct (nth_error df i) as [r |] eqn:E; [| reflexivity]; simpl.
  apply nth_error_In in E; rewrite <- (H r E); destruct r; reflexivity.
Qed.

(** X2.  In every table of a session, fresh or edited, the daily total of
    every row is the product of its hours and its rate, a missing value when
    either is missing; recomputing the totals of such a table changes
    nothing. *)
Theorem session_totals (start end_ : date) (name : string)
  (eds : list edited_frame) :
  let df := session start end_ name eds in
  (forall r, In r df ->
     Daily_Total r = fmul (Hours_Worked r) (Hourly_Rate r))
  /\ calculate_totals df = df.
Proof.
  cbv zeta; split.
  - intros r Hin; eapply session_row_total; exact Hin.
  - apply calculate_totals_fixed.
    intros r Hin; eapply session_row_total; exact Hin.
Qed.

(** ** The last frame wins *)

Lemma rerun_rerun (df : DataFrame) (ed1 ed2 : edited_frame) :
  rerun (rerun df ed1) ed2 = rerun df ed2.
Proof.
  apply nth_error_ext; intros i; rewrite !rerun_nth.
  destruct (nth_error df i) as [r |]; [| reflexivity]; simpl.
  destruct (loc i ed1), (loc i ed2); reflexivity.
Qed.

(** X3.  The table a run leaves depends on the fresh table and on the frame
    the editor returned in that run only: what earlier runs merged leaves no
    trace.  In particular a run that gets the same frame again changes
    nothing. *)
Theorem last_frame_wins (start end_ : date) (name : string)
  (eds : list edited_frame) (ed : edited_frame) :
  session start end_ name (eds ++ [ed])
  = rerun (init_timesheet start end_ name) ed
  /\ rerun (session start end_ name (eds ++ [ed])) ed
     = session start end_ name (eds ++ [ed]).
Proof.
  assert (H : session start end_ name (eds ++ [ed])
              = rerun (init_timesheet start end_ name) ed).
  { unfold session; rewrite fold_left_app; simpl.
    induction eds as [| e eds IH] using rev_ind; [reflexivity |].
    rewrite fold_left_app; simpl; rewrite rerun_rerun; exact IH. }
  split; [exact H |].
  rewrite H; apply rerun_rerun.
Qed.

(** ** Frames left as they are *)

Lemma loc_frame_from (k i : nat) (df : DataFrame) :
  loc (k + i) (frame_from k df) = option_map edit_of (nth_error df i).
Proof.
  revert k i; induction df as [| r df IH]; intros k i; simpl.
  - destruct i; reflexivity.
  - destruct i as [| i].
    + rewrite Nat.add_0_r, Nat.eqb_refl; reflexivity.
    + destruct (Nat.eqb_spec k (k + S i)) as [H | _]; [lia |].
      replace (k + S i)%nat with (S k + i)%nat by lia; apply IH.
Qed.

Lemma rerun_editor_input (df : DataFrame) :
  rerun df (editor_input df) = calculate_totals df.
Proof.
  apply nth_error_ext; intros i.
  rewrite rerun_nth, calculate_totals_nth.
  unfold editor_input.
  pose proof (loc_frame_from 0 i df) as Hloc; cbn [Nat.add] in Hloc.
  rewrite Hloc.
  destruct (nth_error df i) as [r |]; [| reflexivity]; simpl.
  destruct r; reflexivity.
Qed.

(** X5.  When the user changes nothing, so that the editor returns the frame
    it was shown, a run leaves every table of a session exactly as it was. *)
Theorem unchanged_frame_keeps_table (start end_ : date) (name : string)
  (eds : list edited_frame) :
  let df := session start end_ name eds in
  rerun df (editor_input df) = df.
Proof.
  cbv zeta; rewrite rerun_editor_input.
  apply calculate_totals_fixed.
  intros r Hin; eapply session_row_total; exact Hin.
Qed.

(* ------------------------------------------------------------------ *)
(** ** The metrics *)

Lemma positive_rates_positive (df : DataFrame) :
  Forall (fun q => 0 < q) (positive_rates df).
Proof.
  induction df as [| r df IH]; simpl; [constructor |].
  destruct (Hourly_Rate r) as [q |]; [| exact IH].
  destruct (Qle_bool q 0) eqn:E; [exact IH |].
  constructor; [| exact IH].
  apply Qnot_le_lt; intros H; apply Qle_bool_iff in H; congruence.
Qed.

Lemma Qsum_positive (l : list Q) :
  Forall (fun q => 0 < q) l -> l <> [] -> 0 < Qsum l.
Proof.
  induction 1 as [| q l Hq Hl IH]; intros Hne; [congruence |].
  change (Qsum (q :: l)) with (q + Qsum l).
  destruct l as [| q' l'].
  - change (Qsum []) with 0; lra.
  - assert (0 < Qsum (q' :: l')) by (apply IH; discriminate); lra.
Qed.

Lemma days_worked_le (df : DataFrame) :
  (days_worked df <= List.length df)%nat.
Proof. unfold days_worked; apply filter_length_le. Qed.

(** X6.  The average rate is always a number: 0 when no row has a rate above
    0, and above 0 otherwise.  The days worked never exceed the rows of the
    table. *)
Theorem avg_hourly_rate_defined (df : DataFrame) :
  (exists q, avg_hourly_rate df = Some q
             /\ (positive_rates df = [] -> q == 0)
             /\ (positive_rates df <> [] -> 0 < q))
  /\ (days_worked df <= List.length df)%nat.
Proof.
  split; [| apply days_worked_le].
  pose proof (avg_hourly_rate_spec df) as H.
  destruct (avg_hourly_rate df) as [q |]; [| contradiction].
  exists q; split; [reflexivity |]; simpl in H; split.
  - intros E; rewrite H; unfold spec_average_rate; rewrite E; reflexivity.
  - intros Hne; rewrite H; unfold spec_average_rate.
    pose proof (Qsum_positive _ (positive_rates_positive df) Hne) as Hs.
    destruct (positive_rates df) as [| q0 l]; [congruence |].
    set (n := List.length (q0 :: l)).
    assert (Hn : 0 < inject_Z (Z.of_nat n)).
    { change 0 with (inject_Z 0); rewrite <- Zlt_Qlt; subst n; simpl; lia. }
    apply Qlt_shift_div_l; [exact Hn | lra].
Qed.

(** *** Within the bounds of the grid *)

Lemma sum_hours_bounds (df : DataFrame) :
  Forall within_grid_bounds df ->
  0 <= total_hours df
  /\ total_hours df <= 24 * inject_Z (Z.of_nat (days_worked df)).
Proof.
  unfold total_hours, days_worked; induction 1 as [| r df (Hh & _) _ IH].
  - split; vm_compute; discriminate.
  - cbn [map sum filter]; destruct IH as (IH0 & IH24).
    destruct (Hours_Worked r) as [q |]; cbn [nan0 gt0 cell_between] in *.
    + destruct (Qle_bool q 0) eqn:E; cbn [negb].
      * apply Qle_bool_iff in E; split; lra.
      * cbn [List.length]; rewrite Nat2Z.inj_succ; unfold Z.succ.
        rewrite inject_Z_plus; change (inject_Z 1) with 1; split; lra.
    + split; lra.
Qed.

Lemma sum_earnings_nonneg (df : DataFrame) :
  Forall within_grid_bounds df -> 0 <= total_earnings (calculate_totals df).
Proof.
  unfold total_earnings; rewrite calculate_totals_Daily_Total.
  induction 1 as [| r df (Hh & Hr) _ IH]; cbn [map sum]; [lra |].
  destruct (Hours_Worked r) as [h |], (Hourly_Rate r) as [rt |];
    cbn [fmul nan0 cell_between cell_at_least] in *; try lra.
  assert (0 <= h * rt) by (apply Qmult_le_0_compat; lra); lra.
Qed.

(** X7.  When every cell is within the bounds the grid sets (hours from 0 to
    24, rates from 0 up, or missing), the total hours lie between 0 and 24
    hours per day worked, whatever the days without hours, and the total
    earnings of the recomputed table are not negative. *)
Theorem totals_within_bounds (df : DataFrame) :
  Forall within_grid_bounds df ->
  0 <= total_hours df
  /\ total_hours df <= 24 * inject_Z (Z.of_nat (days_worked df))
  /\ total_hours (calculate_totals df) == total_hours df
  /\ 0 <= total_earnings (calculate_totals df).
Proof.
  intros H; destruct (sum_hours_bounds df H) as (H0 & H24).
  split; [exact H0 | split; [exact H24 | split]].
  - unfold total_hours.
    rewrite (calculate_totals_column Hours_Worked) by reflexivity.
    reflexivity.
  - apply sum_earnings_nonneg; exact H.
Qed.

Lemma totals_within_bounds_witness :
  let df := rerun (init_timesheet (mkdate 2025 1 1) (mkdate 2025 1 3) "Alex")
              [(0%nat, mkedit (Some 8) (Some 20) None);
               (1%nat, mkedit (Some 24) (Some (1 # 4)) None)] in
  0 <= total_hours df
  /\ total_hours df <= 24 * inject_Z (Z.of_nat (days_worked df))
  /\ total_hours (calculate_totals df) == total_hours df
  /\ 0 <= total_earnings (calculate_totals df).
Proof.
  cbv zeta; apply totals_within_bounds.
  repeat constructor; vm_compute; discriminate.
Defined.

(** *** A fresh table *)

Lemma init_sum_zero (col : row -> cell) (rs : list row) :
  (forall r, In r rs -> col r = Some 0) -> sum (map col rs) == 0.
Proof.
  induction rs as [| r rs IH]; intros H; simpl; [reflexivity |].
  rewrite (H r) by (left; reflexivity); simpl.
  rewrite IH by (intros; apply H; right; assumption); reflexivity.
Qed.

Lemma init_rows_zero (start end_ : date) (name : string) (r : row) :
  In r (init_timesheet start end_ name) ->
  Hours_Worked r = Some 0 /\ Hourly_Rate r = Some 0 /\ Daily_Total r = Some 0.
Proof.
  unfold init_timesheet; cbv zeta; intros Hin.
  apply in_map_iff in Hin; destruct Hin as (d & <- & _); repeat split.
Qed.

Lemma round2_zero (q : Q) : q == 0 -> round2 q == 0.
Proof.
  intros H; unfold round2, rint.
  assert (E : Qfloor (q * 100) = 0%Z).
  { rewrite (Qfloor_comp (q * 100) 0) by (rewrite H; reflexivity).
    reflexivity. }
  rewrite E.
  assert (C : Qcompare (q * 100 - inject_Z 0) (1 # 2) = Lt).
  { apply Qlt_alt; rewrite H; reflexivity. }
  rewrite C; reflexivity.
Qed.

Lemma filter_gt0_zero (col : row -> cell) (rs : list row) :
  (forall r, In r rs -> col r = Some 0) ->
  filter (fun r => gt0 (col r)) rs = [].
Proof.
  induction rs as [| r rs IH]; intros Hcol; simpl; [reflexivity |].
  rewrite (Hcol r) by (left; reflexivity); simpl.
  apply IH; intros; apply Hcol; right; assumption.
Qed.

Lemma filter_init_zero (start end_ : date) (name : string)
  (p : row -> bool) (r : row) :
  In r (filter p (init_timesheet start end_ name)) ->
  Hours_Worked r = Some 0 /\ Hourly_Rate r = Some 0 /\ Daily_Total r = Some 0.
Proof.
  intros Hin; apply filter_In in Hin; destruct Hin as (Hin & _).
  eapply init_rows_zero; exact Hin.
Qed.

(** X8.  A table fresh from [init_timesheet], as after a reset, shows zero
    everywhere: the four metrics are 0 and every group of the weekly and of
    the monthly summary has 0 hours and 0 earnings. *)
Theorem fresh_table_zero (start end_ : date) (name : string) :
  let df := init_timesheet start end_ name in
  total_hours df == 0 /\ total_earnings df == 0
  /\ avg_hourly_rate df = Some 0 /\ days_worked df = O
  /\ (forall w h e, In (w, (h, e)) (weekly_summary df) -> h == 0 /\ e == 0)
  /\ (forall m h e, In (m, (h, e)) (monthly_summary df) -> h == 0 /\ e == 0).
Proof.
  cbv zeta.
  assert (Hz := init_rows_zero start end_ name).
  assert (Hf : forall col, (forall r, In r (init_timesheet start end_ name) ->
                              col r = Some 0) ->
               filter (fun r => gt0 (col r)) (init_timesheet start end_ name)
               = [])
    by (intros col Hcol; apply filter_gt0_zero; exact Hcol).
  split; [| split; [| split; [| split; [| split]]]].
  - apply init_sum_zero; intros r Hr; apply Hz; exact Hr.
  - apply init_sum_zero; intros r Hr; apply Hz; exact Hr.
  - unfold avg_hourly_rate; cbv zeta.
    rewrite Hf by (intros r Hr; apply Hz; exact Hr); reflexivity.
  - unfold days_worked.
    rewrite Hf by (intros r Hr; apply Hz; exact Hr); reflexivity.
  - intros w h e Hin.
    destruct (weekly_groups (init_timesheet start end_ name)) as (_ & _ & Hg).
    apply summary_In in Hin; destruct Hin as (rs & Hin & -> & ->).
    apply Hg in Hin; subst rs.
    split; apply round2_zero, init_sum_zero; intros r Hr;
      eapply filter_init_zero; exact Hr.
  - intros m h e Hin.
    destruct (monthly_groups (init_timesheet start end_ name)) as (_ & _ & Hg).
    apply summary_In in Hin; destruct Hin as (rs & Hin & -> & ->).
    apply Hg in Hin; subst rs.
    split; apply round2_zero, init_sum_zero; intros r Hr;
      eapply filter_init_zero; exact Hr.
Qed.

(* ------------------------------------------------------------------ *)
(** ** The dates of the table and the columns derived from them *)

Lemma session_nth_Date (start end_ : date) (name : string)
  (eds : list edited_frame) (i : nat) (r : row) :
  nth_error (session start end_ name eds) i = Some r ->
  Date r = (toordinal start + Z.of_nat i)%Z
  /\ (toordinal start <= Date r <= toordinal end_)%Z.
Proof.
  intros Hi.
  pose proof (session_Date start end_ name eds) as HD.
  assert (Hd : nth_error (date_range (toordinal start) (toordinal end_)) i
               = Some (Date r))
    by (rewrite <- HD, nth_error_map, Hi; reflexivity).
  assert (Hlt : (i < List.length (date_range (toordinal start)
                                    (toordinal end_)))%nat)
    by (apply nth_error_Some; congruence).
  rewrite date_range_nth in Hd by exact Hlt; injection Hd as Hd.
  split; [symmetry; exact Hd |].
  apply date_range_In; rewrite <- HD; apply in_map.
  eapply nth_error_In; exact Hi.
Qed.

Lemma session_next_day (start end_ : date) (name : string)
  (eds : list edited_frame) (i : nat) (r r' : row) :
  valid_date start -> valid_date end_ ->
  nth_error (session start end_ name eds) i = Some r ->
  nth_error (session start end_ name eds) (S i) = Some r' ->
  ord2ymd (Date r') = tomorrow (ord2ymd (Date r)).
Proof.
  intros Hs He Hi Hi'.
  destruct (session_nth_Date _ _ _ _ _ _ Hi) as (Ed & Hin).
  destruct (session_nth_Date _ _ _ _ _ _ Hi') as (Ed' & Hin').
  replace (Date r') with (Date r + 1)%Z by lia.
  apply (CalendarSteps.ord2ymd_succ start end_); auto; lia.
Qed.

(** X9.  The rows of a table are consecutive calendar days: the date of
    every row is a valid date, the one [i] days after the start date, and
    the date of each row is the day after the date of the row above. *)
Theorem session_consecutive_days (start end_ : date) (name : string)
  (eds : list edited_frame) :
  valid_date start -> valid_date end_ ->
  let df := session start end_ name eds in
  (forall i r, nth_error df i = Some r ->
     valid_date (ord2ymd (Date r))
     /\ toordinal (ord2ymd (Date r)) = (toordinal start + Z.of_nat i)%Z)
  /\ (forall i r r', nth_error df i = Some r ->
        nth_error df (S i) = Some r' ->
        ord2ymd (Date r') = tomorrow (ord2ymd (Date r))).
Proof.
  intros Hs He df; split.
  - intros i r Hi.
    destruct (session_nth_Date _ _ _ _ _ _ Hi) as (Ed & Hin).
    destruct (CalendarSteps.day_number_valid start end_ (Date r) Hs He Hin)
      as (Hv & En).
    split; [exact Hv | rewrite En; exact Ed].
  - intros i r r' Hi Hi'.
    exact (session_next_day start end_ name eds i r r' Hs He Hi Hi').
Qed.

Lemma session_consecutive_days_witness :
  let df := session (mkdate 2024 12 30) (mkdate 2025 1 2) "Alex" [] in
  (forall i r, nth_error df i = Some r ->
     valid_date (ord2ymd (Date r))
     /\ toordinal (ord2ymd (Date r))
        = (toordinal (mkdate 2024 12 30) + Z.of_nat i)%Z)
  /\ (forall i r r', nth_error df i = Some r ->
        nth_error df (S i) = Some r' ->
        ord2ymd (Date r') = tomorrow (ord2ymd (Date r))).
Proof.
  apply (session_consecutive_days (mkdate 2024 12 30) (mkdate 2025 1 2)
           "Alex" []); concrete_date.
Defined.

Lemma day_name_Monday (n : Z) : weekday n = 0%Z -> day_name n = "Monday"%string.
Proof. unfold day_name; intros ->; reflexivity. Qed.

Lemma session_week_bounds (start end_ : date) (name : string)
  (eds : list edited_frame) (r : row) :
  valid_date start -> valid_date end_ ->
  In r (session start end_ name eds) -> (1 <= Week r <= 53)%Z.
Proof.
  intros Hs He Hin.
  destruct (session_row_columns _ _ _ _ _ Hin) as (_ & -> & _).
  apply In_nth_error in Hin; destruct Hin as (i & Hi).
  destruct (session_nth_Date _ _ _ _ _ _ Hi) as (_ & Hin).
  destruct (CalendarSteps.day_number_valid start end_ (Date r) Hs He Hin).
  apply CalendarSteps.isoweek_bounds; assumption.
Qed.

(** X10.  The week number of every row lies between 1 and 53, and it
    changes on Mondays only: a row that is not a Monday has the week number
    of the row above. *)
Theorem session_week_steps (start end_ : date) (name : string)
  (eds : list edited_frame) :
  valid_date start -> valid_date end_ ->
  let df := session start end_ name eds in
  (forall r, In r df -> (1 <= Week r <= 53)%Z)
  /\ (forall i r r', nth_error df i = Some r ->
        nth_error df (S i) = Some r' ->
        Day r' <> "Monday"%string -> Week r' = Week r).
Proof.
  intros Hs He df; split.
  - intros r Hin.
    exact (session_week_bounds start end_ name eds r Hs He Hin).
  - intros i r r' Hi Hi' Hday.
    destruct (session_row_columns _ _ _ _ _ (nth_error_In _ _ Hi))
      as (_ & -> & _).
    destruct (session_row_columns _ _ _ _ _ (nth_error_In _ _ Hi'))
      as (Dn & -> & _).
    destruct (session_nth_Date _ _ _ _ _ _ Hi) as (Ed & Hin).
    destruct (session_nth_Date _ _ _ _ _ _ Hi') as (Ed' & Hin').
    destruct (CalendarSteps.day_number_valid start end_ (Date r) Hs He Hin).
    destruct (CalendarSteps.day_number_valid start end_ (Date r') Hs He Hin').
    assert (E : Date r' = (Date r + 1)%Z) by lia.
    rewrite E in *.
    apply CalendarSteps.isoweek_succ; try assumption.
    intros Hw; apply Hday; rewrite Dn; apply day_name_Monday; exact Hw.
Qed.

Lemma session_week_steps_witness :
  let df := session (mkdate 2024 12 30) (mkdate 2025 1 7) "Alex" [] in
  (forall r, In r df -> (1 <= Week r <= 53)%Z)
  /\ (forall i r r', nth_error df i = Some r ->
        nth_error df (S i) = Some r' ->
        Day r' <> "Monday"%string -> Week r' = Week r).
Proof.
  apply (session_week_steps (mkdate 2024 12 30) (mkdate 2025 1 7) "Alex" []);
    concrete_date.
Defined.

Lemma day_name_Monday_inv (n : Z) :
  day_name n = "Monday"%string -> weekday n = 0%Z.
Proof.
  unfold day_name; destruct (weekday n) as [| p | p]; [reflexivity | |];
    [| discriminate].
  do 3 (try destruct p as [p | p |]); discriminate.
Qed.

(** X16.  On a Monday the week number is one more than in the row above,
    or it starts again at 1 after a week 52 or 53. *)
Theorem session_week_mondays (start end_ : date) (name : string)
  (eds : list edited_frame) (i : nat) (r r' : row) :
  valid_date start -> valid_date end_ ->
  let df := session start end_ name eds in
  nth_error df i = Some r -> nth_error df (S i) = Some r' ->
  Day r' = "Monday"%string ->
  Week r' = (Week r + 1)%Z \/ (Week r' = 1%Z /\ (52 <= Week r)%Z).
Proof.
  intros Hs He df Hi Hi' Hday.
  destruct (session_row_columns _ _ _ _ _ (nth_error_In _ _ Hi))
    as (_ & -> & _).
  destruct (session_row_columns _ _ _ _ _ (nth_error_In _ _ Hi'))
    as (Dn & -> & _).
  destruct (session_nth_Date _ _ _ _ _ _ Hi) as (Ed & Hin).
  destruct (session_nth_Date _ _ _ _ _ _ Hi') as (Ed' & Hin').
  destruct (CalendarSteps.day_number_valid start end_ (Date r) Hs He Hin).
  destruct (CalendarSteps.day_number_valid start end_ (Date r') Hs He Hin').
  assert (E : Date r' = (Date r + 1)%Z) by lia.
  rewrite E in *.
  apply CalendarSteps.isoweek_monday; try assumption.
  apply day_name_Monday_inv; rewrite <- Dn; exact Hday.
Qed.

Lemma session_week_mondays_witness :
  let df := session (mkdate 2024 12 29) (mkdate 2024 12 30) "Alex" [] in
  let r := init_row "Alex" (toordinal (mkdate 2024 12 29)) in
  let r' := init_row "Alex" (toordinal (mkdate 2024 12 30)) in
  (Week r = 52 /\ Week r' = 1)%Z
  /\ (Week r' = (Week r + 1)%Z \/ (Week r' = 1%Z /\ (52 <= Week r)%Z)).
Proof.
  cbv zeta; split; [split; vm_compute; reflexivity |].
  apply (session_week_mondays (mkdate 2024 12 29) (mkdate 2024 12 30) "Alex"
           [] 0); try concrete_date; vm_compute; reflexivity.
Defined.

Lemma tomorrow_month (d : date) :
  day (tomorrow d) <> 1%Z -> month (tomorrow d) = month d.
Proof.
  unfold tomorrow.
  destruct (day d <? days_in_month (year d) (month d))%Z; [reflexivity |].
  destruct (month d <? 12)%Z; simpl; congruence.
Qed.

Lemma weekday_plus_7 (n : Z) : weekday (n + 7) = weekday n.
Proof. unfold weekday; Z.div_mod_to_equations; lia. Qed.

(** X11.  The month of a row changes on the first day of a month only, and
    the weekday names repeat every seven rows. *)
Theorem session_month_steps (start end_ : date) (name : string)
  (eds : list edited_frame) :
  valid_date start -> valid_date end_ ->
  let df := session start end_ name eds in
  (forall i r r', nth_error df i = Some r ->
     nth_error df (S i) = Some r' ->
     day (ord2ymd (Date r')) <> 1%Z -> Month r' = Month r)
  /\ (forall i r r', nth_error df i = Some r ->
        nth_error df (i + 7) = Some r' -> Day r' = Day r).
Proof.
  intros Hs He df; split.
  - intros i r r' Hi Hi' Hday.
    destruct (session_row_columns _ _ _ _ _ (nth_error_In _ _ Hi))
      as (_ & _ & -> & _).
    destruct (session_row_columns _ _ _ _ _ (nth_error_In _ _ Hi'))
      as (_ & _ & -> & _).
    pose proof (session_next_day start end_ name eds i r r' Hs He Hi Hi')
      as Hnext.
    unfold month_name; rewrite Hnext in *.
    rewrite tomorrow_month by exact Hday; reflexivity.
  - intros i r r' Hi Hi'.
    destruct (session_row_columns _ _ _ _ _ (nth_error_In _ _ Hi))
      as (-> & _).
    destruct (session_row_columns _ _ _ _ _ (nth_error_In _ _ Hi'))
      as (-> & _).
    destruct (session_nth_Date _ _ _ _ _ _ Hi) as (Ed & _).
    destruct (session_nth_Date _ _ _ _ _ _ Hi') as (Ed' & _).
    replace (Date r') with (Date r + 7)%Z by lia.
    unfold day_name; rewrite weekday_plus_7; reflexivity.
Qed.

Lemma session_month_steps_witness :
  let df := session (mkdate 2025 1 25) (mkdate 2025 2 5) "Alex" [] in
  (forall i r r', nth_error df i = Some r ->
     nth_error df (S i) = Some r' ->
     day (ord2ymd (Date r')) <> 1%Z -> Month r' = Month r)
  /\ (forall i r r', nth_error df i = Some r ->
        nth_error df (i + 7) = Some r' -> Day r' = Day r).
Proof.
  apply (session_month_steps (mkdate 2025 1 25) (mkdate 2025 2 5) "Alex" []);
    concrete_date.
Defined.

(* ------------------------------------------------------------------ *)
(** ** The size of the summaries *)

Lemma month_name_of_In (m : Z) : In (month_name_of m) month_names.
Proof.
  unfold month_name_of, month_names.
  destruct m as [| p | p]; simpl; try tauto.
  do 4 (try destruct p as [p | p |]); simpl; tauto.
Qed.

Lemma week_numbers_In (w : Z) : (1 <= w <= 53)%Z -> In w week_numbers.
Proof.
  intros H; unfold week_numbers; apply in_map_iff.
  exists (Z.to_nat w); split; [lia | apply in_seq; lia].
Qed.

(** X12.  A summary never has more groups than the table has rows; the
    monthly summary has at most 12 groups and the weekly summary at most 53,
    however many years the table spans. *)
Theorem summary_sizes (start end_ : date) (name : string)
  (eds : list edited_frame) :
  valid_date start -> valid_date end_ ->
  let df := session start end_ name eds in
  (List.length (weekly_summary df) <= List.length df)%nat
  /\ (List.length (monthly_summary df) <= List.length df)%nat
  /\ (List.length (weekly_summary df) <= 53)%nat
  /\ (List.length (monthly_summary df) <= 12)%nat.
Proof.
  intros Hs He df.
  destruct (weekly_groups df) as (Hws & Hwk & _).
  destruct (monthly_groups df) as (Hms & Hmk & _).
  assert (Nw : NoDup (map fst (weekly_summary df))).
  { unfold weekly_summary; rewrite summary_keys.
    apply strictly_sorted_NoDup; exact Hws. }
  assert (Nm : NoDup (map fst (monthly_summary df))).
  { unfold monthly_summary; rewrite summary_keys.
    apply (sorted_keys_NoDup String_as_OT.compare string_compare_refl).
    exact Hms. }
  assert (Iw : forall w, In w (map fst (weekly_summary df)) ->
                         In w (map Week df)).
  { intros w; unfold weekly_summary; rewrite summary_keys; apply Hwk. }
  assert (Im : forall m, In m (map fst (monthly_summary df)) ->
                         In m (map Month df)).
  { intros m; unfold monthly_summary; rewrite summary_keys; apply Hmk. }
  split; [| split; [| split]].
  - rewrite <- (length_map fst), <- (length_map Week df).
    apply NoDup_incl_length; [exact Nw | exact Iw].
  - rewrite <- (length_map fst), <- (length_map Month df).
    apply NoDup_incl_length; [exact Nm | exact Im].
  - rewrite <- (length_map fst).
    change 53%nat with (List.length week_numbers).
    apply NoDup_incl_length; [exact Nw |].
    intros w Hw; apply Iw, in_map_iff in Hw; destruct Hw as (r & <- & Hr).
    apply week_numbers_In.
    exact (session_week_bounds start end_ name eds r Hs He Hr).
  - rewrite <- (length_map fst).
    change 12%nat with (List.length month_names).
    apply NoDup_incl_length; [exact Nm |].
    intros m Hm; apply Im, in_map_iff in Hm; destruct Hm as (r & <- & Hr).
    destruct (session_row_columns _ _ _ _ _ Hr) as (_ & _ & -> & _).
    apply month_name_of_In.
Qed.

Lemma summary_sizes_witness :
  let df := session (mkdate 2024 12 30) (mkdate 2026 1 4) "Alex" [] in
  (List.length (weekly_summary df) <= List.length df)%nat
  /\ (List.length (monthly_summary df) <= List.length df)%nat
  /\ (List.length (weekly_summary df) <= 53)%nat
  /\ (List.length (monthly_summary df) <= 12)%nat.
Proof.
  apply (summary_sizes (mkdate 2024 12 30) (mkdate 2026 1 4) "Alex" []);
    concrete_date.
Defined.

(* ------------------------------------------------------------------ *)
(** ** Tables on which the sums are exact *)









(* ------------------------------------------------------------------ *)
(** ** The names of the exported files *)

Lemma replace_space_clean (s : text) : ~ In space (replace_space s).
Proof.
  unfold replace_space; intros Hin; apply in_map_iff in Hin.
  destruct Hin as (c & Hc & _).
  destruct (Ascii.eqb_spec c space) as [_ | Hne]; [discriminate | congruence].
Qed.

Lemma digit_not_space (n : Z) : digit n <> space.
Proof.
  unfold digit.
  assert (H : (0 <= n mod 10 < 10)%Z) by (apply Z.mod_pos_bound; lia).
  assert (E : exists k, (k < 10)%nat /\ Z.to_nat (n mod 10) = k)
    by (exists (Z.to_nat (n mod 10)); split; [lia | reflexivity]).
  destruct E as (k & Hk & ->).
  do 10 (destruct k as [| k]; [discriminate |]); lia.
Qed.

Lemma stamp_clean (today : date) : ~ In space (stamp today).
Proof.
  unfold stamp, pad4, pad2; cbn [app In].
  intros H; repeat destruct H as [H | H];
    try exact (digit_not_space _ H); exact H.
Qed.

(** X14.  The name given to a download, on a day of the years 1000 to 9999
    where [strftime('%Y')] gives four digits, holds no space, whatever the
    name of the employee: it is as long as its parts, and the name of the
    employee stands in it with underscores for its spaces and every other
    character kept. *)
Theorem file_name_clean (employee_name : string) (today : date) :
  (1000 <= year today <= 9999)%Z ->
  ~ In space (file_name employee_name today ".csv")
  /\ ~ In space (file_name employee_name today ".xlsx")
  /\ List.length (file_name employee_name today ".csv")
     = (String.length employee_name + 23)%nat
  /\ (forall i c, nth_error (chars employee_name) i = Some c ->
        nth_error (file_name employee_name today ".csv") (10 + i)
        = Some (if Ascii.eqb c space then underscore else c)).
Proof.
  intros _.
  assert (Hname : forall ext, ~ In space (chars ext) ->
            ~ In space (file_name employee_name today ext)).
  { intros ext Hext; unfold file_name.
    rewrite in_app_iff, in_app_iff; cbn [In]; rewrite in_app_iff.
    intros [H | [H | [H | [H | H]]]].
    - revert H; vm_compute; intuition discriminate.
    - exact (replace_space_clean _ H).
    - discriminate.
    - exact (stamp_clean _ H).
    - exact (Hext H). }
  split; [| split; [| split]].
  - apply Hname; vm_compute; intuition discriminate.
  - apply Hname; vm_compute; intuition discriminate.
  - assert (E : forall s, List.length (chars s) = String.length s)
      by (unfold chars; induction s; simpl; congruence).
    assert (Es : List.length (stamp today) = 8%nat) by reflexivity.
    unfold file_name.
    rewrite length_app, length_app; cbn [List.length].
    rewrite length_app, Es, !E; unfold replace_space.
    rewrite length_map, E; simpl; lia.
  - intros i c Hi; unfold file_name.
    change (chars "timesheet_") with
      (list_ascii_of_string "timesheet_").
    rewrite nth_error_app2 by (simpl; lia).
    replace (10 + i - List.length (list_ascii_of_string "timesheet_"))%nat
      with i by (simpl; lia).
    rewrite nth_error_app1.
    + unfold replace_space; rewrite nth_error_map, Hi; reflexivity.
    + unfold replace_space; rewrite length_map.
      apply nth_error_Some; congruence.
Qed.

Lemma file_name_clean_witness :
  let name := "Ada Lovelace"%string in
  let today := mkdate 2025 3 9 in
  (1000 <= year today <= 9999)%Z
  /\ file_name name today ".csv" = chars "timesheet_Ada_Lovelace_20250309.csv"
  /\ (~ In space (file_name name today ".csv")
      /\ ~ In space (file_name name today ".xlsx")
      /\ List.length (file_name name today ".csv")
         = (String.length name + 23)%nat
      /\ (forall i c, nth_error (chars name) i = Some c ->
            nth_error (file_name name today ".csv") (10 + i)
            = Some (if Ascii.eqb c space then underscore else c))).
Proof.
  cbv zeta; split; [vm_compute; split; discriminate |].
  split; [vm_compute; reflexivity |].
  apply file_name_clean; vm_compute; split; discriminate.
Defined.

(* ------------------------------------------------------------------ *)
(** ** The buttons *)

(** X15.  Clearing never happens.  A button is true in the run its click
    started and in no other, so at most one button is true in a run; the
    confirmation is asked for inside the branch of the Clear button, and a
    run always leaves the table that the merge and the recomputation gave,
    never a fresh one by the way of the Clear branch. *)
Theorem clear_never_clears (clicked : button -> bool) (start end_ : date)
  (name : string) (editor : DataFrame -> edited_frame)
  (state : option DataFrame) :
  (forall a b, clicked a = true -> clicked b = true -> a = b) ->
  let shown :=
    if clicked Initialize then init_timesheet start end_ name
    else match state with
         | Some df => df
         | None => init_timesheet start end_ name
         end in
  main clicked start end_ name editor state = rerun shown (editor shown).
Proof.
  intros Hone shown; unfold main; cbv zeta.
  destruct (clicked ClearAll) eqn:EA.
  - destruct (clicked ConfirmClear) eqn:EC.
    + pose proof (Hone _ _ EA EC); discriminate.
    + subst shown; destruct (clicked Initialize); reflexivity.
  - subst shown; destruct (clicked Initialize); reflexivity.
Qed.

Lemma clear_never_clears_witness :
  let clicked := fun b => match b with ConfirmClear => true | _ => false end in
  let ed := [(0%nat, mkedit (Some 8) (Some 20) None)] in
  let state := rerun (init_timesheet (mkdate 2025 1 1) (mkdate 2025 1 1) "Alex")
                 ed in
  main clicked (mkdate 2025 1 1) (mkdate 2025 1 1) "Alex" (fun _ => ed)
    (Some state)
  = rerun state ed.
Proof.
  cbv zeta.
  apply (clear_never_clears
           (fun b => match b with ConfirmClear => true | _ => false end)
           (mkdate 2025 1 1) (mkdate 2025 1 1) "Alex"
           (fun _ => [(0%nat, mkedit (Some 8) (Some 20) None)])).
  intros a b; destruct a, b; simpl; congruence.
Defined.

(* ------------------------------------------------------------------ *)
(** ** The inputs of the page *)

(** X17.  The dates and the name typed in the side bar reach the table
    through [init_timesheet] only: as long as the session has a table and
    the Initialize button is not the one clicked, a run gives the same table
    whatever these inputs are, so a new name or range is not applied before
    a reset. *)
Theorem inputs_wait_for_reset (clicked : button -> bool)
  (start end_ start' end_' : date) (name name' : string)
  (editor : DataFrame -> edited_frame) (df : DataFrame) :
  (forall a b, clicked a = true -> clicked b = true -> a = b) ->
  clicked Initialize = false ->
  main clicked start end_ name editor (Some df)
  = main clicked start' end_' name' editor (Some df)
  /\ main clicked start end_ name editor (Some df) = rerun df (editor df).
Proof.
  intros Hone Hinit; unfold main; rewrite Hinit; cbv zeta.
  destruct (clicked ClearAll) eqn:EA; [| split; reflexivity].
  destruct (clicked ConfirmClear) eqn:EC; [| split; reflexivity].
  pose proof (Hone _ _ EA EC); discriminate.
Qed.

Lemma inputs_wait_for_reset_witness :
  let clicked := fun b => match b with PrepareCsv => true | _ => false end in
  let ed := [(0%nat, mkedit (Some 8) (Some 20) None)] in
  let df := init_timesheet (mkdate 2025 1 1) (mkdate 2025 1 1) "Alex" in
  main clicked (mkdate 2025 1 1) (mkdate 2025 1 1) "Alex" (fun _ => ed)
    (Some df)
  = main clicked (mkdate 2026 6 1) (mkdate 2026 6 30) "Sam" (fun _ => ed)
      (Some df)
  /\ main clicked (mkdate 2025 1 1) (mkdate 2025 1 1) "Alex" (fun _ => ed)
       (Some df)
     = rerun df ed.
Proof.
  cbv zeta.
  apply (inputs_wait_for_reset
           (fun b => match b with PrepareCsv => true | _ => false end)
           (mkdate 2025 1 1) (mkdate 2025 1 1) (mkdate 2026 6 1)
           (mkdate 2026 6 30) "Alex" "Sam"
           (fun _ => [(0%nat, mkedit (Some 8) (Some 20) None)])).
  - intros a b; destruct a, b; simpl; congruence.
  - reflexivity.
Defined.

(* ------------------------------------------------------------------ *)
(** ** Notes *)

Section SameFigures.
Context {K : Type}.
Variable cmp : K -> K -> comparison.
Variable key : row -> K.

Let same_group (g g' : K * list row) : Prop :=
  fst g = fst g' /\ Forall2 (same_figures key) (snd g) (snd g').

Lemma group_add_same (r r' : row) (gs gs' : list (K * list row)) :
  same_figures key r r' -> Forall2 same_group gs gs' ->
  Forall2 same_group (group_add cmp (key r) r gs)
    (group_add cmp (key r') r' gs').
Proof.
  intros Hr Hgs; pose proof Hr as (Hk & _); rewrite <- Hk.
  assert (H1 : Forall2 (same_figures key) [r] [r'])
    by (constructor; [exact Hr | constructor]).
  induction Hgs as [| [k rs] [k' rs'] gs gs' (Ek & Hrs) Hgs IH]; simpl.
  - constructor; [split; [reflexivity | exact H1] | constructor].
  - simpl in Ek, Hrs; subst k'.
    destruct (cmp (key r) k).
    + constructor; [| exact Hgs].
      split; [reflexivity |]; simpl.
      apply Forall2_app; [exact Hrs | exact H1].
    + constructor; [split; [reflexivity | exact H1] |].
      constructor; [split; [reflexivity | exact Hrs] | exact Hgs].
    + constructor; [split; [reflexivity | exact Hrs] | exact IH].
Qed.

Lemma groupby_same (df df' : DataFrame) :
  Forall2 (same_figures key) df df' ->
  Forall2 same_group (groupby cmp key df) (groupby cmp key df').
Proof.
  unfold groupby; intros H.
  assert (G : Forall2 same_group [] []) by constructor.
  revert G; generalize (@nil (K * list row)) at 1 3.
  generalize (@nil (K * list row)).
  induction H as [| r r' l l' Hr _ IH]; intros gs' gs G; simpl; [exact G |].
  apply IH, group_add_same; assumption.
Qed.

Lemma same_figures_sums (rs rs' : list row) :
  Forall2 (same_figures key) rs rs' ->
  map Hours_Worked rs = map Hours_Worked rs'
  /\ map Daily_Total rs = map Daily_Total rs'.
Proof.
  induction 1 as [| r r' rs rs' (_ & Hh & Ht) _ (IHh & IHt)]; simpl;
    [split; reflexivity |].
  rewrite Hh, Ht, IHh, IHt; split; reflexivity.
Qed.

Lemma summary_same (df df' : DataFrame) :
  Forall2 (same_figures key) df df' ->
  summary cmp key df = summary cmp key df'.
Proof.
  intros H; unfold summary; f_equal.
  induction (groupby_same df df' H) as [| [k rs] [k' rs'] gs gs' (Ek & Hrs) _ IH];
    [reflexivity |].
  simpl in Ek, Hrs; subst k'.
  destruct (same_figures_sums rs rs' Hrs) as (Hh & Ht).
  cbn [agg_sum map fst snd]; rewrite Hh, Ht; f_equal; exact IH.
Qed.

End SameFigures.

Lemma Forall2_nth {A : Type} (R : A -> A -> Prop) (l l' : list A) :
  List.length l = List.length l' ->
  (forall i a b, nth_error l i = Some a -> nth_error l' i = Some b -> R a b) ->
  Forall2 R l l'.
Proof.
  revert l'; induction l as [| a l IH]; intros [| b l'] Hlen H;
    try discriminate; constructor.
  - exact (H 0%nat a b eq_refl eq_refl).
  - apply IH; [simpl in Hlen; lia |].
    intros i x y Hx Hy; exact (H (S i) x y Hx Hy).
Qed.

Lemma notes_only_rows (df : DataFrame) (ed : edited_frame) :
  notes_only df ed ->
  Forall2 (fun r r' => Week r = Week r' /\ Month r = Month r'
                       /\ Hours_Worked r = Hours_Worked r'
                       /\ Hourly_Rate r = Hourly_Rate r'
                       /\ Daily_Total r = Daily_Total r')
    (rerun df ed) (calculate_totals df).
Proof.
  intros Hn; apply Forall2_nth.
  - unfold rerun, update.
    rewrite !calculate_totals_length; apply update_from_length.
  - intros i a b; rewrite rerun_nth, calculate_totals_nth.
    destruct (nth_error df i) as [r |] eqn:E; [| discriminate]; simpl.
    destruct (Hn i r E) as (e & -> & Hh & Hr).
    intros Ha Hb; injection Ha as <-; injection Hb as <-; simpl.
    rewrite Hh, Hr; repeat split.
Qed.

(** X18.  A frame that changes the notes only changes no figure: the hours,
    the rates and the daily totals of the table, its four metrics and its
    weekly and monthly summaries are those of the table recomputed as it
    was. *)
Theorem notes_change_no_figure (df : DataFrame) (ed : edited_frame) :
  notes_only df ed ->
  let after := rerun df ed in
  let before := calculate_totals df in
  map Hours_Worked after = map Hours_Worked before
  /\ map Hourly_Rate after = map Hourly_Rate before
  /\ map Daily_Total after = map Daily_Total before
  /\ total_hours after = total_hours before
  /\ total_earnings after = total_earnings before
  /\ avg_hourly_rate after = avg_hourly_rate before
  /\ days_worked after = days_worked before
  /\ weekly_summary after = weekly_summary before
  /\ monthly_summary after = monthly_summary before.
Proof.
  intros Hn after before.
  pose proof (notes_only_rows df ed Hn) as H; fold after before in H.
  assert (Hcols : map Hours_Worked after = map Hours_Worked before
                  /\ map Hourly_Rate after = map Hourly_Rate before
                  /\ map Daily_Total after = map Daily_Total before).
  { induction H as [| a b l l' (_ & _ & Hh & Hr & Ht) _ (IH1 & IH2 & IH3)];
      simpl; [repeat split |].
    rewrite Hh, Hr, Ht, IH1, IH2, IH3; repeat split. }
  destruct Hcols as (Hh & Hr & Ht).
  split; [exact Hh | split; [exact Hr | split; [exact Ht |]]].
  split; [unfold total_hours; rewrite Hh; reflexivity |].
  split; [unfold total_earnings; rewrite Ht; reflexivity |].
  split; [| split; [| split]].
  - unfold avg_hourly_rate; cbv zeta.
    assert (E : map Hourly_Rate (filter (fun r => gt0 (Hourly_Rate r)) after)
                = map Hourly_Rate (filter (fun r => gt0 (Hourly_Rate r)) before)).
    { clear Hh Hr Ht; induction H as [| a b l l' (_ & _ & _ & Hr & _) _ IH];
        simpl; [reflexivity |].
      rewrite Hr; destruct (gt0 (Hourly_Rate b)); simpl; rewrite ?Hr, IH;
        reflexivity. }
    rewrite <- (length_map Hourly_Rate
                  (filter (fun r => gt0 (Hourly_Rate r)) after)), E.
    rewrite length_map; reflexivity.
  - unfold days_worked.
    clear Hh Hr Ht; induction H as [| a b l l' (_ & _ & Hh & _) _ IH];
      simpl; [reflexivity |].
    rewrite Hh; destruct (gt0 (Hours_Worked b)); simpl; rewrite IH;
      reflexivity.
  - apply summary_same; eapply Forall2_impl; [| exact H].
    intros a b (Hw & _ & Hh' & _ & Ht'); repeat split; assumption.
  - apply summary_same; eapply Forall2_impl; [| exact H].
    intros a b (_ & Hm & Hh' & _ & Ht'); repeat split; assumption.
Qed.

Lemma notes_change_no_figure_witness :
  let df := rerun (init_timesheet (mkdate 2025 1 1) (mkdate 2025 1 2) "Alex")
              [(0%nat, mkedit (Some 8) (Some 20) None);
               (1%nat, mkedit (Some 6) (Some 25) None)] in
  let ed := [(0%nat, mkedit (Some 8) (Some 20) (Some "review"%string));
             (1%nat, mkedit (Some 6) (Some 25) (Some "tests"%string))] in
  let after := rerun df ed in
  let before := calculate_totals df in
  map Hours_Worked after = map Hours_Worked before
  /\ map Hourly_Rate after = map Hourly_Rate before
  /\ map Daily_Total after = map Daily_Total before
  /\ total_hours after = total_hours before
  /\ total_earnings after = total_earnings before
  /\ avg_hourly_rate after = avg_hourly_rate before
  /\ days_worked after = days_worked before
  /\ weekly_summary after = weekly_summary before
  /\ monthly_summary after = monthly_summary before.
Proof.
  cbv zeta; apply notes_change_no_figure.
  intros i r Hi; destruct i as [| [| i]]; simpl in Hi.
  - injection Hi as <-; eexists; split; [reflexivity | split; reflexivity].
  - injection Hi as <-; eexists; split; [reflexivity | split; reflexivity].
  - destruct i; discriminate.
Defined.

(* ------------------------------------------------------------------ *)
(** ** Two tables with the same export *)

Lemma read_csv_to_csv (float_repr : Q -> text) (df : DataFrame) :
  (forall r f, In r df -> In f (row_fields float_repr r) -> no_CR f) ->
  read_csv (to_csv float_repr df) = columns :: map (row_fields float_repr) df.
Proof.
  intros Hcr.
  assert (E : to_csv float_repr df
              = List.concat (map write_row
                               (columns :: map (row_fields float_repr) df))).
  { unfold to_csv; cbn [map List.concat]; rewrite map_map; reflexivity. }
  unfold read_csv; rewrite E, CSVFacts.parse_records; [reflexivity | |].
  - constructor.
    + unfold wide, columns; simpl; eauto.
    + apply Forall_forall; intros fs Hfs.
      apply in_map_iff in Hfs; destruct Hfs as (r & <- & _).
      unfold wide, row_fields; eauto.
  - constructor; [exact columns_no_CR |].
    apply Forall_forall; intros fs Hfs.
    apply in_map_iff in Hfs; destruct Hfs as (r & <- & Hr).
    apply Forall_forall; intros f Hf; exact (Hcr r f Hr Hf).
Qed.

Lemma fmt_text_note (t : option string) : fmt_text t = chars (note_text t).
Proof. destruct t; reflexivity. Qed.

(** X19.  The export loses no text but the difference between a missing and
    an empty note: two tables without carriage returns that export to the
    same text have as many rows and, row by row, the same weekday, month and
    employee name, the same note text and the same renderings of the hours,
    the rate and the daily total. *)
Theorem same_export_same_text (float_repr : Q -> text) (df df' : DataFrame) :
  (forall r f, In r df -> In f (row_fields float_repr r) -> no_CR f) ->
  (forall r f, In r df' -> In f (row_fields float_repr r) -> no_CR f) ->
  to_csv float_repr df = to_csv float_repr df' ->
  List.length df = List.length df'
  /\ (forall i r r', nth_error df i = Some r -> nth_error df' i = Some r' ->
        Day r = Day r' /\ Month r = Month r'
        /\ Employee_Name r = Employee_Name r'
        /\ note_text (Tasks_Completed r) = note_text (Tasks_Completed r')
        /\ fmt_cell float_repr (Hours_Worked r)
           = fmt_cell float_repr (Hours_Worked r')
        /\ fmt_cell float_repr (Hourly_Rate r)
           = fmt_cell float_repr (Hourly_Rate r')
        /\ fmt_cell float_repr (Daily_Total r)
           = fmt_cell float_repr (Daily_Total r')).
Proof.
  intros Hcr Hcr' E.
  assert (M : map (row_fields float_repr) df = map (row_fields float_repr) df').
  { pose proof (read_csv_to_csv float_repr df Hcr) as R.
    pose proof (read_csv_to_csv float_repr df' Hcr') as R'.
    rewrite E, R' in R; injection R as R; symmetry; exact R. }
  split.
  - rewrite <- (length_map (row_fields float_repr) df), M; apply length_map.
  - intros i r r' Hi Hi'.
    assert (F : row_fields float_repr r = row_fields float_repr r').
    { assert (N : nth_error (map (row_fields float_repr) df) i
                  = nth_error (map (row_fields float_repr) df') i)
        by (rewrite M; reflexivity).
      rewrite !nth_error_map, Hi, Hi' in N; simpl in N.
      exact (f_equal (fun o => match o with
                               | Some x => x
                               | None => []
                               end) N). }
    pose proof (f_equal (fun l => nth 1 l []) F) as Fday.
    pose proof (f_equal (fun l => nth 2 l []) F) as Fh.
    pose proof (f_equal (fun l => nth 3 l []) F) as Fr.
    pose proof (f_equal (fun l => nth 4 l []) F) as Ft.
    pose proof (f_equal (fun l => nth 5 l []) F) as Fnote.
    pose proof (f_equal (fun l => nth 7 l []) F) as Fmonth.
    pose proof (f_equal (fun l => nth 8 l []) F) as Fname.
    cbn [row_fields nth] in Fday, Fh, Fr, Ft, Fnote, Fmonth, Fname.
    rewrite !fmt_text_note in Fnote.
    repeat split; try assumption; apply chars_inj; assumption.
Qed.

Lemma same_export_same_text_witness :
  let df := init_timesheet (mkdate 2025 1 1) (mkdate 2025 1 1) "Alex" in
  let kept := rerun df [(0%nat, mkedit (Some 0) (Some 0) (Some EmptyString))] in
  let cleared := rerun df [(0%nat, mkedit (Some 0) (Some 0) None)] in
  List.length kept = List.length cleared
  /\ (forall i r r', nth_error kept i = Some r ->
        nth_error cleared i = Some r' ->
        Day r = Day r' /\ Month r = Month r'
        /\ Employee_Name r = Employee_Name r'
        /\ note_text (Tasks_Completed r) = note_text (Tasks_Completed r')
        /\ fmt_cell decimal_repr (Hours_Worked r)
           = fmt_cell decimal_repr (Hours_Worked r')
        /\ fmt_cell decimal_repr (Hourly_Rate r)
           = fmt_cell decimal_repr (Hourly_Rate r')
        /\ fmt_cell decimal_repr (Daily_Total r)
           = fmt_cell decimal_repr (Daily_Total r')).
Proof.
  cbv zeta; apply same_export_same_text.
  - apply frame_no_CR_check; vm_compute; reflexivity.
  - apply frame_no_CR_check; vm_compute; reflexivity.
  - vm_compute; reflexivity.
Defined.

(* ------------------------------------------------------------------ *)
(** ** Reading the export back *)

Lemma digit_value_digit (n : Z) : digit_value (digit n) = Some (n mod 10)%Z.
Proof.
  unfold digit_value, digit.
  assert (H : (0 <= n mod 10 < 10)%Z) by (apply Z.mod_pos_bound; lia).
  rewrite nat_ascii_embedding by lia.
  replace ((48 <=? 48 + Z.to_nat (n mod 10))%nat
           && (48 + Z.to_nat (n mod 10) <=? 57)%nat) with true.
  - f_equal; lia.
  - symmetry; apply andb_true_iff; split; apply Nat.leb_le; lia.
Qed.

Lemma read_pad2 (n : Z) : (0 <= n <= 99)%Z -> read_digits 0 (pad2 n) = Some n.
Proof.
  intros H; unfold pad2; cbn [read_digits].
  rewrite !digit_value_digit; f_equal.
  rewrite (Z.mod_small (n / 10)) by (split; [apply Z.div_pos | apply Z.div_lt_upper_bound]; lia).
  pose proof (Z.div_mod n 10); lia.
Qed.

Lemma read_pad4 (n : Z) :
  (0 <= n <= 9999)%Z -> read_digits 0 (pad4 n) = Some n.
Proof.
  intros H; unfold pad4, pad2; cbn [read_digits].
  rewrite !digit_value_digit; f_equal.
  Z.div_mod_to_equations; lia.
Qed.

Lemma valid_dateb_true (d : date) : valid_date d -> valid_dateb d = true.
Proof.
  unfold valid_date, valid_dateb; intros (Hy & Hm & Hd).
  repeat (apply andb_true_iff; split); apply Z.leb_le; lia.
Qed.

(** A date reads back from its [YYYY-MM-DD] as the same day. *)
Lemma read_date_fmt_date (n : Z) :
  date_number n -> read_date (fmt_date n) = Some n.
Proof.
  intros Hn.
  destruct (CalendarSteps.day_number_valid (mkdate 1 1 1) (mkdate 9999 12 31) n)
    as (Hv & En).
  - vm_compute; intuition discriminate.
  - vm_compute; intuition discriminate.
  - exact Hn.
  - unfold fmt_date; cbv zeta.
    destruct (ord2ymd n) as [y m d] eqn:E.
    pose proof Hv as (Hy & Hm & Hd); cbn [year month day] in *.
    assert (Hd31 : (d <= 31)%Z).
    { pose proof (CalendarSteps.days_in_month_bounds y m); lia. }
    unfold pad4 at 1, pad2 at 2 3; cbn [app].
    unfold pad2 at 1.
    change (read_date _)
      with (match read_digits 0 (pad4 y), read_digits 0 (pad2 m),
                  read_digits 0 (pad2 d) with
            | Some y, Some m, Some d =>
                if Ascii.eqb "-" "-" && Ascii.eqb "-" "-"
                   && valid_dateb (mkdate y m d)
                then Some (ymd2ord y m d)
                else None
            | _, _, _ => None
            end).
    rewrite read_pad4, !read_pad2 by lia.
    rewrite (valid_dateb_true _ Hv), !Ascii.eqb_refl; cbn [andb].
    f_equal; exact En.
Qed.

Lemma to_int_proper (z : Z) : Z.to_int z <> Decimal.Pos Decimal.Nil
                              /\ Z.to_int z <> Decimal.Neg Decimal.Nil.
Proof.
  destruct z as [| p | p]; simpl; split; try discriminate;
    intros H; injection H as H;
    exact (DecimalPos.Unsigned.to_uint_nonnil p H).
Qed.

(** An integer reads back from its decimal digits. *)
Lemma read_int_fmt_int (z : Z) : read_int (fmt_int z) = Some z.
Proof.
  unfold read_int, fmt_int, chars.
  rewrite string_of_list_ascii_of_string.
  destruct (to_int_proper z) as (Hp & Hn).
  rewrite NilZero.isi by assumption; simpl.
  f_equal; apply DecimalZ.of_to.
Qed.

Lemma read_text_chars (s : string) : read_text (chars s) = s.
Proof. apply string_of_list_ascii_of_string. Qed.

Lemma read_text_note (t : option string) :
  read_text (fmt_text t) = note_text t.
Proof. destruct t; [apply read_text_chars | reflexivity]. Qed.

Section ReadBackFacts.
Variable float_repr : Q -> text.
Variable float_read : text -> option Q.

Lemma read_cell_fmt_cell (c : cell) :
  reads_back float_repr float_read c ->
  exists c', read_cell float_read (fmt_cell float_repr c) = Some c'
             /\ cell_eq c' c.
Proof.
  destruct c as [q |]; simpl; [| exists None; split; [reflexivity | exact I]].
  intros (Hne & q' & Hq & E); unfold read_cell.
  destruct (float_repr q); [congruence |].
  rewrite Hq; exists (Some q'); split; [reflexivity | exact E].
Qed.

Lemma read_row_fields (r : row) :
  date_number (Date r) ->
  reads_back float_repr float_read (Hours_Worked r) ->
  reads_back float_repr float_read (Hourly_Rate r) ->
  reads_back float_repr float_read (Daily_Total r) ->
  exists r', read_row float_read (row_fields float_repr r) = Some r'
             /\ read_back r r'.
Proof.
  intros Hd Hh Hr Ht; unfold row_fields, read_row.
  rewrite read_date_fmt_date by exact Hd.
  destruct (read_cell_fmt_cell _ Hh) as (h & -> & Eh).
  destruct (read_cell_fmt_cell _ Hr) as (rate & -> & Er).
  destruct (read_cell_fmt_cell _ Ht) as (total & -> & Et).
  rewrite read_int_fmt_int, !read_text_chars, read_text_note.
  eexists; split; [reflexivity |].
  unfold read_back; cbn; repeat split; assumption.
Qed.

Lemma read_rows_fields (df : DataFrame) :
  (forall r, In r df ->
     date_number (Date r)
     /\ reads_back float_repr float_read (Hours_Worked r)
     /\ reads_back float_repr float_read (Hourly_Rate r)
     /\ reads_back float_repr float_read (Daily_Total r)) ->
  exists rows,
    read_rows float_read (map (row_fields float_repr) df) = Some rows
    /\ Forall2 read_back df rows.
Proof.
  induction df as [| r df IH]; intros H.
  - exists []; split; [reflexivity | constructor].
  - cbn [map read_rows].
    destruct (H r (or_introl eq_refl)) as (Hd & Hh & Hr & Ht).
    destruct (read_row_fields r Hd Hh Hr Ht) as (r' & -> & Hr').
    destruct IH as (rows & -> & Hrows);
      [intros r0 Hr0; apply H; right; exact Hr0 |].
    exists (r' :: rows); split; [reflexivity | constructor; assumption].
Qed.
End ReadBackFacts.

(** The proviso on carriage returns is needed: the writer quotes a field
    for the characters of its dialect only, so a carriage return in a note
    is written bare, and the reader takes it as the end of a record.  The
    export of a single day then reads back as two records after the
    header, neither of which is a row. *)
Lemma carriage_return_ends_record :
  let note := String "a" (String CR (String "b" EmptyString)) in
  let df := rerun (init_timesheet (mkdate 2025 1 1) (mkdate 2025 1 1) "Alex")
              [(0%nat, mkedit (Some 8) (Some 20) (Some note))] in
  List.length df = 1%nat
  /\ read_csv (to_csv decimal_repr df)
     = [columns;
        [chars "2025-01-01"; chars "Wednesday"; chars "8.0"; chars "20.0";
         chars "160.0"; chars "a"];
        [chars "b"; chars "1"; chars "January"; chars "Alex"]]
  /\ read_table decimal_read (to_csv decimal_repr df) = None.
Proof. cbv zeta; repeat split; vm_compute; reflexivity. Qed.

(** C8, amended.  The export is the header followed by one record per row of
    the daily table, in order, and nothing else.  Provided no field holds a
    carriage return, every date is one a [datetime.date] can hold and every
    number reads back from its rendering, reading the export back gives the
    nine column names and then the rows of the table, in order: each with
    its date, weekday, hours, rate, daily total, week, month and employee
    name, and with its note, except that a missing note reads back as the
    empty text. *)
Theorem to_csv_read_back (float_repr : Q -> text)
  (float_read : text -> option Q) (df : DataFrame) :
  (forall r f, In r df -> In f (row_fields float_repr r) -> no_CR f) ->
  (forall r, In r df -> date_number (Date r)) ->
  (forall r c, In r df ->
     In c [Hours_Worked r; Hourly_Rate r; Daily_Total r] ->
     reads_back float_repr float_read c) ->
  read_csv (to_csv float_repr df) = columns :: map (row_fields float_repr) df
  /\ exists rows,
       read_table float_read (to_csv float_repr df) = Some rows
       /\ Forall2
            (fun r r' =>
               Date r' = Date r /\ Day r' = Day r
               /\ cell_eq (Hours_Worked r') (Hours_Worked r)
               /\ cell_eq (Hourly_Rate r') (Hourly_Rate r)
               /\ cell_eq (Daily_Total r') (Daily_Total r)
               /\ Tasks_Completed r'
                  = Some (match Tasks_Completed r with
                          | Some note => note
                          | None => EmptyString
                          end)
               /\ Week r' = Week r /\ Month r' = Month r
               /\ Employee_Name r' = Employee_Name r)
            df rows.
Proof.
  intros Hcr Hd Hq.
  pose proof (read_csv_to_csv float_repr df Hcr) as E.
  split; [exact E |].
  destruct (read_rows_fields float_repr float_read df) as (rows & Er & Hrows).
  { intros r Hr; split; [exact (Hd r Hr) |].
    split; [| split]; apply (Hq r _ Hr); cbn [In]; auto. }
  exists rows; split; [unfold read_table; rewrite E; exact Er |].
  eapply Forall2_impl; [| exact Hrows].
  intros r r' H; exact H.
Qed.

Ltac reads_back_by_computation :=
  lazymatch goal with
  | |- reads_back ?f ?g ?c =>
      let c' := eval vm_compute in c in
      change (reads_back f g c'); cbn [reads_back];
      first
        [ exact I
        | split; [vm_compute; discriminate |];
          eexists; split; [vm_compute; reflexivity | reflexivity] ]
  end.

Lemma to_csv_read_back_witness :
  let note := String comma (String dquote (String LF "ok")) in
  let df := rerun (init_timesheet (mkdate 2025 1 1) (mkdate 2025 1 3) "Alex")
              [(0%nat, mkedit (Some 8) (Some (81 # 4)) (Some note));
               (1%nat, mkedit (Some (13 # 2)) (Some 25) None)] in
  map Date (match read_table decimal_read (to_csv decimal_repr df) with
            | Some rows => rows
            | None => []
            end) = map Date df
  /\ (read_csv (to_csv decimal_repr df)
      = columns :: map (row_fields decimal_repr) df
      /\ exists rows,
           read_table decimal_read (to_csv decimal_repr df) = Some rows
           /\ Forall2
                (fun r r' =>
                   Date r' = Date r /\ Day r' = Day r
                   /\ cell_eq (Hours_Worked r') (Hours_Worked r)
                   /\ cell_eq (Hourly_Rate r') (Hourly_Rate r)
                   /\ cell_eq (Daily_Total r') (Daily_Total r)
                   /\ Tasks_Completed r'
                      = Some (match Tasks_Completed r with
                              | Some note => note
                              | None => EmptyString
                              end)
                   /\ Week r' = Week r /\ Month r' = Month r
                   /\ Employee_Name r' = Employee_Name r)
                df rows).
Proof.
  cbv zeta; split; [vm_compute; reflexivity |].
  apply (to_csv_read_back decimal_repr decimal_read).
  - apply frame_no_CR_check; vm_compute; reflexivity.
  - intros r Hr;
      repeat (destruct Hr as [<- | Hr]; [vm_compute; intuition discriminate |]).
    destruct Hr.
  - intros r c Hr Hc.
    repeat (destruct Hr as [<- | Hr];
            [repeat (destruct Hc as [<- | Hc]; [reads_back_by_computation |]);
             destruct Hc |]).
    destruct Hr.
Defined.
